(** * Tag-analyzer: the tag comparison engine of [TagAnalyzer.tsx]

    A shallow embedding of the three functions of the component
    ([getMismatchedTags], [getL1Tags] and the [complete] callback of
    [handleFileUpload]) together with the JavaScript string and array
    primitives they call, followed by the properties of the engine. *)

From Stdlib Require Import NArith Ascii String.
From stdpp Require Import base option list sorting.

(** ** JavaScript strings and the built-ins the component calls *)

(** A JavaScript string is its sequence of UTF-16 code units. *)
Abbreviation jsstring := (list N) (only parsing).

(** The code units of an ASCII literal of the source. *)
Definition js (s : string) : jsstring := N_of_ascii <$> list_ascii_of_string s.
Arguments js _%_string.

(** A value read from an array by index: [None] is [undefined], which is what
    [row[i]] evaluates to when [i] is not an index of [row]. *)
Abbreviation jsvalue := (option (list N)) (only parsing).

(** The abrupt completions that can occur: calling a method on [undefined]
    or reading a property of [undefined] raises a [TypeError]. *)
Inductive exn : Type := TypeError.

Inductive completion (A : Type) : Type :=
| Normal (a : A)
| Throw (e : exn).
Arguments Normal {A} a.
Arguments Throw {A} e.

(** Sequencing: an exception skips the rest of the block. *)
#[export] Instance completion_bind : MBind completion := λ A B k c,
  match c with
  | Normal a => k a
  | Throw e => Throw e
  end.

Module JS.

(** [s.startsWith(p)] *)
Fixpoint startsWith (p s : jsstring) : bool :=
  match p, s with
  | [], _ => true
  | _ :: _, [] => false
  | a :: p', b :: s' => (a =? b)%N && startsWith p' s'
  end.

(** [s.indexOf(sep)], with [None] for -1: the least position at which
    [sep] occurs in [s]. *)
Fixpoint indexOf (sep s : jsstring) : option nat :=
  if startsWith sep s then Some 0
  else match s with
       | [] => None
       | _ :: s' => S <$> indexOf sep s'
       end.

(** [s.includes(sep)] *)
Definition includes (sep s : jsstring) : bool :=
  match indexOf sep s with Some _ => true | None => false end.

(** [s.split(sep)] for a non-empty separator, scanning left to right:
    [acc] holds the current piece reversed, [skip] counts the code units of
    a matched separator that are still to be passed over. *)
Fixpoint split_go (sep : jsstring) (skip : nat) (acc s : jsstring)
  : list jsstring :=
  match s with
  | [] => [reverse acc]
  | c :: s' =>
    match skip with
    | S k => split_go sep k acc s'
    | O =>
      if startsWith sep s
      then reverse acc :: split_go sep (length sep - 1) [] s'
      else split_go sep 0 (c :: acc) s'
    end
  end.

(** [s.split(sep)]; an empty separator splits into single code units. *)
Definition split (sep s : jsstring) : list jsstring :=
  match sep with
  | [] => (λ c, [c]) <$> s
  | _ :: _ => split_go sep 0 [] s
  end.

(** [l.join(sep)] on an array of strings. *)
Fixpoint join (sep : jsstring) (l : list jsstring) : jsstring :=
  match l with
  | [] => []
  | [x] => x
  | x :: l' => x ++ sep ++ join sep l'
  end.

(** WhiteSpace and LineTerminator code points of ECMAScript, all of them in
    the basic plane: TAB, LF, VT, FF, CR, SP, NBSP, U+1680, U+2000-U+200A,
    U+2028, U+2029, U+202F, U+205F, U+3000 and U+FEFF. *)
Definition isWhiteSpace (c : N) : bool :=
  ((9 <=? c) && (c <=? 13) || (c =? 32) || (c =? 160) || (c =? 5760)
   || (8192 <=? c) && (c <=? 8202) || (c =? 8232) || (c =? 8233)
   || (c =? 8239) || (c =? 8287) || (c =? 12288) || (c =? 65279))%N.

Fixpoint trimStart (s : jsstring) : jsstring :=
  match s with
  | [] => []
  | c :: s' => if isWhiteSpace c then trimStart s' else s
  end.

Definition trimEnd (s : jsstring) : jsstring :=
  reverse (trimStart (reverse s)).

(** [s.trim()] *)
Definition trim (s : jsstring) : jsstring := trimEnd (trimStart s).

(** [a < b] on strings: lexicographic on code units, a proper prefix
    being smaller. *)
Fixpoint ltb (a b : jsstring) : bool :=
  match a, b with
  | _, [] => false
  | [], _ :: _ => true
  | x :: a', y :: b' => (x <? y)%N || (x =? y)%N && ltb a' b'
  end.

(** The order of [Array.prototype.sort] without a comparator: [a] may
    stand before [b] when [b < a] does not hold. *)
Definition le (a b : jsstring) : Prop := ltb b a = false.

#[global] Instance le_dec : RelDecision le.
Proof. intros a b. unfold le. apply _. Defined.

(** [l.sort()] on an array of strings. The strings are compared as
    wholes, so two entries that compare equal are the same string and the
    result does not depend on the sorting algorithm. *)
Definition sort (l : list jsstring) : list jsstring := merge_sort le l.

(** [Boolean(v)] for a cell: [undefined] and the empty string are falsy. *)
Definition truthy (v : jsvalue) : bool :=
  match v with
  | Some (_ :: _) => true
  | _ => false
  end.

(** A [Set<string>] as the list of its members in insertion order. *)
Definition Set_add (x : jsstring) (s : list jsstring) : list jsstring :=
  if decide (x ∈ s) then s else s ++ [x].

(** [v.split(sep)] where [v] may be [undefined]. *)
Definition method_split (sep : jsstring) (v : jsvalue)
  : completion (list jsstring) :=
  match v with
  | Some s => Normal (split sep s)
  | None => Throw TypeError
  end.

(** [v.trim()] where [v] may be [undefined]. *)
Definition method_trim (v : jsvalue) : completion jsstring :=
  match v with
  | Some s => Normal (trim s)
  | None => Throw TypeError
  end.

End JS.

(** ** The component *)

(** A grid is [string[][]]: rows of any length. *)
Abbreviation grid := (list (list (list N))) (only parsing).

(** The [type] parameter of [getMismatchedTags]. *)
Inductive mode : Type := over | under.

(** [const [sourceIdx, destIdx] = type === "over" ? [3, 2] : [2, 3]] *)
Definition sourceIdx (type : mode) : nat :=
  match type with over => 3 | under => 2 end.
Definition destIdx (type : mode) : nat :=
  match type with over => 2 | under => 3 end.

(** An element of [output]: the sentinel string or a one-element array.
    The array holds a cell as read, hence possibly [undefined]. *)
Inductive mismatch : Type :=
| Sentinel
| Tags (l : list jsvalue).

#[export] Instance mismatch_eq_dec : EqDecision mismatch.
Proof. solve_decision. Defined.

(** The body of the loop of [getMismatchedTags] for one row: the entry it
    pushes, or the exception it raises. *)
Definition mismatchOfRow (type : mode) (row : list jsstring)
  : completion mismatch :=
  let sourceCol := row !! sourceIdx type in
  let destCol := row !! destIdx type in
  if decide (sourceCol = Some []) then Normal (Tags [destCol])
  else if decide (destCol = Some []) then Normal Sentinel
  else
    sourceTags ← JS.method_split (js ",") sourceCol ;
    destTags ← JS.method_split (js ",") destCol ;
    let filtered := filter (λ value, value ∉ sourceTags) destTags in
    Normal (if (0 <? length filtered)%nat
            then Tags [Some (JS.join (js ",") filtered)]
            else Sentinel).

(** The loop [for (let i = 1; i < content.length; i++)] over the rows that
    remain, [output] being the array built so far. *)
Fixpoint mismatchLoop (type : mode) (rows : list (list jsstring))
    (output : list mismatch) : completion (list mismatch) :=
  match rows with
  | [] => Normal output
  | row :: rest =>
    e ← mismatchOfRow type row ;
    mismatchLoop type rest (output ++ [e])
  end.

Definition getMismatchedTags (content : grid) (type : mode)
  : completion (list mismatch) :=
  mismatchLoop type (drop 1 content) [].

(** The [forEach] of [getL1Tags] over the flags of one row. *)
Fixpoint l1ForEach (allFlags : list jsstring) (uniqueTags : list jsstring)
  : completion (list jsstring) :=
  match allFlags with
  | [] => Normal uniqueTags
  | flag :: rest =>
    if JS.includes (js "::") flag
    then
      l1Tag ← JS.method_trim (JS.split (js "::") flag !! 1%nat) ;
      l1ForEach rest (JS.Set_add l1Tag uniqueTags)
    else l1ForEach rest uniqueTags
  end.

(** [[agentFlags, qaFlags].filter(Boolean).flatMap(flags => flags.split(","))] *)
Definition allFlagsOfRow (row : list jsstring) : list jsstring :=
  let agentFlags := row !! 2%nat in
  let qaFlags := row !! 3%nat in
  mjoin (JS.split (js ",") <$> omap id (filter (λ v, JS.truthy v = true) [agentFlags; qaFlags])).

Fixpoint l1Loop (rows : list (list jsstring)) (uniqueTags : list jsstring)
  : completion (list jsstring) :=
  match rows with
  | [] => Normal uniqueTags
  | row :: rest =>
    uniqueTags' ← l1ForEach (allFlagsOfRow row) uniqueTags ;
    l1Loop rest uniqueTags'
  end.

Definition getL1Tags (content : grid) : completion (list jsstring) :=
  uniqueTags ← l1Loop (drop 1 content) [] ;
  Normal (JS.sort uniqueTags).

(** The state of the component: [results] and [error]. *)
Record AnalysisResults : Type := mkResults {
  data : list (list (list N));
  overtags : list mismatch;
  undertags : list mismatch;
  l1Tags : list (list N)
}.

Inductive message : Type :=
| InvalidCsvFormat            (* 'Invalid CSV format. Please check the column headers.' *)
| ErrorProcessingFile (e : exn) (* 'Error processing file: ' + err.message *)
| ErrorParsingCsv.            (* 'Error parsing CSV: ' + error.message *)

Record component : Type := mkComponent {
  results : option AnalysisResults;
  error : option message
}.

Definition setResults (r : option AnalysisResults) (st : component) : component :=
  {| results := r; error := error st |}.
Definition setError (m : option message) (st : component) : component :=
  {| results := results st; error := m |}.

(** The expected header row. *)
Definition expectedHeaders : list jsstring :=
  [js "Task Link"; js "Actioned Date"; js "All Agent Flags";
   js "All QA Flags"; js "Agent"].

(** The condition of the [if] that validates the headers. *)
Definition headersInvalid (headers : list jsstring) : bool :=
  negb (length headers =? 5)%nat
  || negb (bool_decide (headers !! 0%nat = Some (js "Task Link")))
  || negb (bool_decide (headers !! 1%nat = Some (js "Actioned Date")))
  || negb (bool_decide (headers !! 2%nat = Some (js "All Agent Flags")))
  || negb (bool_decide (headers !! 3%nat = Some (js "All QA Flags")))
  || negb (bool_decide (headers !! 4%nat = Some (js "Agent"))).

(** [data.filter(row => row[3] !== '')] *)
Definition filterRows (content : grid) : grid :=
  filter (λ row : list jsstring, row !! 3%nat ≠ Some []) content.

(** The body of the [try] block of the [complete] callback. No state is
    written before the last operation that can raise, so an exception
    leaves the state as it was on entry. *)
Definition tryBlock (content : grid) (st : component) : completion component :=
  headers ← match content !! 0%nat with
            | Some h => Normal h
            | None => Throw TypeError   (* [headers.length] on [undefined] *)
            end ;
  if headersInvalid headers
  then Normal (setError (Some InvalidCsvFormat) st)
  else
    let filteredContent := filterRows content in
    overtags ← getMismatchedTags filteredContent over ;
    undertags ← getMismatchedTags filteredContent under ;
    l1Tags ← getL1Tags filteredContent ;
    Normal (setError None
              (setResults (Some (mkResults filteredContent overtags undertags l1Tags)) st)).

(** The [complete] callback of [handleFileUpload]: the [try] block and its
    [catch]. *)
Definition handleFileUpload (content : grid) (st : component) : component :=
  match tryBlock content st with
  | Normal st' => st'
  | Throw e => setError (Some (ErrorProcessingFile e)) st
  end.

(** ** Vocabulary of the specification

    The specification speaks of the part of a token behind the first
    occurrence of the delimiter, and of the tag tokens of a result entry;
    these are written here with [indexOf], apart from the code above. *)

(** The substring of [s] after the first occurrence of [sep]. *)
Definition afterFirst (sep s : jsstring) : jsstring :=
  match JS.indexOf sep s with
  | Some j => drop (j + length sep) s
  | None => []
  end.

(** The substring of [s] before the first occurrence of [sep], all of [s]
    when there is none. *)
Definition beforeFirst (sep s : jsstring) : jsstring :=
  match JS.indexOf sep s with
  | Some j => take j s
  | None => s
  end.

(** The part of a token between its first delimiter and the next one. *)
Definition secondPiece (sep s : jsstring) : jsstring :=
  beforeFirst sep (afterFirst sep s).

(** The tag tokens shown by a result entry: none for the sentinel, the
    comma-separated tokens of the string in the array otherwise. *)
Definition tokensOf (e : mismatch) : list jsstring :=
  match e with
  | Sentinel => []
  | Tags l => mjoin (JS.split (js ",") <$> omap id l)
  end.

(** A row with QA flags: its cell at index 3 is there and is not empty. *)
Definition hasQaFlags (row : list jsstring) : Prop :=
  ∃ qa, row !! 3%nat = Some qa ∧ qa ≠ [].

(** What the specification promises of the list of L1 tags of a grid,
    [piece] being the part of a token that is taken as its tag: the list is
    in ascending order, free of duplicates, and holds the trimmed [piece]
    of the tokens with a delimiter in the non-empty flag cells of the data
    rows, and nothing else. *)
Definition l1Contract (piece : jsstring → jsstring)
    (content : grid) (tags : list jsstring) : Prop :=
  Sorted JS.le tags ∧ NoDup tags ∧
  ∀ x, x ∈ tags ↔
       ∃ row cell flag,
         row ∈ drop 1 content ∧
         (row !! 2%nat = Some cell ∨ row !! 3%nat = Some cell) ∧
         cell ≠ [] ∧
         flag ∈ JS.split (js ",") cell ∧
         JS.includes (js "::") flag = true ∧
         x = JS.trim (piece flag).

(** ** Sample grids *)

(** The data row of the scenario of the specification. *)
Definition sampleRow : list jsstring :=
  [js "url1"; js "2024-01-01"; js "Spam::L1A,Other"; js "Spam::L1A"; js "agent1"].
Definition sampleGrid : grid := [expectedHeaders; sampleRow].

(** A first row whose QA-flags cell is empty. *)
Definition blankHeader : list jsstring :=
  [js "Task Link"; js "Actioned Date"; js "All Agent Flags"; []; js "Agent"].

(** The grid of a file that ends with a line break: its last row is the
    single empty cell. *)
Definition trailingLineGrid : grid := [expectedHeaders; sampleRow; [[]]].

(** A token with two delimiters. *)
Definition nestedRow : list jsstring :=
  [js "url3"; js "2024-01-03"; []; js "A::B::C"; js "agent3"].
Definition nestedGrid : grid := [expectedHeaders; nestedRow].

(** Agent flags empty, QA flags ["X"]. *)
Definition emptyAgentRow : list jsstring :=
  [js "url2"; js "2024-01-02"; []; js "X"; js "agent2"].

(** Two flag cells with the same tokens, in another order and number. *)
Definition permutedRow : list jsstring :=
  [js "url5"; js "2024-01-05"; js "a,b"; js "b,a,a"; js "agent5"].

(** A token that ends with its delimiter. *)
Definition spamRow : list jsstring :=
  [js "url4"; js "2024-01-04"; js "Other"; js "Spam::"; js "agent4"].
Definition spamGrid : grid := [expectedHeaders; spamRow].

(** The state of the component before any file is read. *)
Definition initial : component := {| results := None; error := None |}.

(** ** The file input and the view *)

(** What the parser does with a chosen file: it calls [complete] with the
    grid it read, or [error]. *)
Inductive parsed : Type :=
| Complete (content : list (list (list N)))
| Failed.

(** The handler of the file input, [file] being [event.target.files?.[0]]
    together with what the parser makes of it: without a file it returns at
    once; the [error] callback sets the parse message. *)
Definition fileInputChange (file : option parsed) (st : component) : component :=
  match file with
  | None => st
  | Some (Complete content) => handleFileUpload content st
  | Some Failed => setError (Some ErrorParsingCsv) st
  end.

(** The component after a series of changes of the file input. *)
Definition afterChanges (files : list (option parsed)) (st : component)
  : component :=
  foldl (λ st file, fileInputChange file st) st files.

(** A child of a line of a card: a string, or an array of cells. *)
Inductive child : Type :=
| Text (s : list N)
| Items (l : list (option (list N))).

(** [tag === "∅" ? "None" : tag]; an array is never equal to a string. *)
Definition renderTag (tag : mismatch) : child :=
  match tag with
  | Sentinel => Text (js "None")
  | Tags l => Items l
  end.

(** The text a child shows: an array shows its strings one after the other
    and nothing for [undefined]. *)
Definition textOf (c : child) : jsstring :=
  match c with
  | Text s => s
  | Items l => mjoin (omap id l)
  end.

(** The three cards shown under [results &&]. *)
Record cards : Type := mkCards {
  overtagLines : list child;
  undertagLines : list child;
  badges : list (list N)
}.

(** What the component shows: the alert under [error &&] (every message is
    a non-empty string) and the cards under [results &&]. *)
Record view : Type := mkView {
  alert : option message;
  analysis : option cards
}.

Definition render (st : component) : view :=
  {| alert := error st;
     analysis :=
       (λ r, {| overtagLines := renderTag <$> overtags r;
                undertagLines := renderTag <$> undertags r;
                badges := l1Tags r |}) <$> results st |}.

(** A bundle as a run of the callback stores it: the grid begins with the
    expected header, none of its rows has an empty cell 3, and the three
    lists are what the extractors return on the grid. *)
Definition wholeBundle (r : AnalysisResults) : Prop :=
  data r !! 0%nat = Some expectedHeaders ∧
  Forall (λ row : list jsstring, row !! 3%nat ≠ Some []) (data r) ∧
  getMismatchedTags (data r) over = Normal (overtags r) ∧
  getMismatchedTags (data r) under = Normal (undertags r) ∧
  getL1Tags (data r) = Normal (l1Tags r).

(** A row with three cells, the agent flags empty. *)
Definition threeCellRow : list jsstring := [js "url6"; js "2024-01-06"; []].

(** A data row whose agent flag is the word shown for the sentinel. *)
Definition noneRow : list jsstring :=
  [js "url7"; js "2024-01-07"; js "None"; js "Spam::L1A"; js "agent7"].

(** ** Checks on concrete inputs *)

Example split_comma_ex :
  JS.split (js ",") (js "a,,b,") = [js "a"; []; js "b"; []].
Proof. reflexivity. Qed.

Example split_empty_ex : JS.split (js ",") [] = [[]].
Proof. reflexivity. Qed.

Example split_colons_ex :
  JS.split (js "::") (js "a:::b::c") = [js "a"; js ":b"; js "c"].
Proof. reflexivity. Qed.

Example trim_ex : JS.trim (js "  a b	 ") = js "a b".
Proof. reflexivity. Qed.

Example sample_overtags :
  getMismatchedTags (filterRows sampleGrid) over = Normal [Tags [Some (js "Other")]].
Proof. reflexivity. Qed.

Example sample_undertags :
  getMismatchedTags (filterRows sampleGrid) under = Normal [Sentinel].
Proof. reflexivity. Qed.

Example sample_l1Tags : getL1Tags (filterRows sampleGrid) = Normal [js "L1A"].
Proof. reflexivity. Qed.

(** A data row with an empty QA-flags cell takes no part in the results. *)
Example empty_qa_row_excluded :
  handleFileUpload
    [expectedHeaders;
     [js "url0"; js "2024-01-01"; js "Spam::L1B"; []; js "agent0"];
     sampleRow] initial =
  {| results := Some (mkResults sampleGrid [Tags [Some (js "Other")]]
                        [Sentinel] [js "L1A"]);
     error := None |}.
Proof. reflexivity. Qed.

Example sort_ex :
  JS.sort [js "b"; js "a"; js "B"; js "ab"; []] =
  [[]; js "B"; js "a"; js "ab"; js "b"].
Proof. vm_compute. reflexivity. Qed.

(** ** Facts about the string built-ins *)

Section string_facts.
Implicit Types (s p r t sep acc : list N) (c : N) (l : list (list N)).

Lemma startsWith_app p r : JS.startsWith p (p ++ r) = true.
Proof.
  induction p as [|a p IH]; simpl; [done|].
  by rewrite N.eqb_refl, IH.
Qed.

Lemma startsWith_inv p s :
  JS.startsWith p s = true → s = p ++ drop (length p) s.
Proof.
  revert s. induction p as [|a p IH]; intros [|b s]; simpl; try done.
  intros [Hab Hp]%andb_true_iff. apply N.eqb_eq in Hab as ->.
  f_equal. by apply IH.
Qed.

Lemma startsWith_length p s :
  JS.startsWith p s = true → length p ≤ length s.
Proof.
  intros H%startsWith_inv%(f_equal length).
  rewrite length_app in H. lia.
Qed.

(** [indexOf] finds an occurrence, and the leftmost one. *)
Lemma indexOf_Some sep s j :
  JS.indexOf sep s = Some j →
  JS.startsWith sep (drop j s) = true ∧
  ∀ i, i < j → JS.startsWith sep (drop i s) = false.
Proof.
  revert j. induction s as [|c s IH]; intros j; simpl.
  - destruct (JS.startsWith sep []) eqn:E; [|done].
    intros [= <-]. split; [done | lia].
  - destruct (JS.startsWith sep (c :: s)) eqn:E.
    + intros [= <-]. split; [done | lia].
    + destruct (JS.indexOf sep s) as [k|]; [|done].
      intros [= <-]. destruct (IH k eq_refl) as [H1 H2].
      split; [done|]. intros [|i] Hi; [done|]. apply H2. lia.
Qed.

Lemma indexOf_None sep s i :
  JS.indexOf sep s = None → JS.startsWith sep (drop i s) = false.
Proof.
  revert i. induction s as [|c s IH]; intros i; simpl.
  - destruct (JS.startsWith sep []) eqn:E; [done|]. by destruct i.
  - destruct (JS.startsWith sep (c :: s)) eqn:E; [done|].
    destruct (JS.indexOf sep s) as [k|] eqn:Ek; [done|].
    intros _. destruct i as [|i]; [done|]. by apply IH.
Qed.

Lemma indexOf_lt sep s j :
  JS.indexOf sep s = Some j → j + length sep ≤ length s.
Proof.
  revert j. induction s as [|c s IH]; intros j; simpl.
  - destruct (JS.startsWith sep []) eqn:E; [|done].
    intros [= <-]. by apply startsWith_length in E.
  - destruct (JS.startsWith sep (c :: s)) eqn:E.
    + intros [= <-]. by apply startsWith_length in E.
    + destruct (JS.indexOf sep s) as [k|]; [|done].
      intros [= <-]. specialize (IH k eq_refl). lia.
Qed.
End string_facts.

Section split_facts.
Implicit Types (s p r t sep acc : list N) (c : N) (l : list (list N)).

Lemma split_go_skip sep k acc s :
  k ≤ length s → JS.split_go sep k acc s = JS.split_go sep 0 acc (drop k s).
Proof.
  revert s. induction k as [|k IH]; intros s Hk; [done|].
  destruct s as [|c s]; simpl in *; [lia|]. apply IH. lia.
Qed.

(** The scan agrees with the algorithm of the language specification:
    cut at the leftmost occurrence of the separator and go on behind it. *)
Lemma split_go_unfold sep acc s :
  sep ≠ [] →
  JS.split_go sep 0 acc s =
  match JS.indexOf sep s with
  | None => [reverse acc ++ s]
  | Some j =>
    (reverse acc ++ take j s) :: JS.split_go sep 0 [] (drop (j + length sep) s)
  end.
Proof.
  intros Hsep. revert acc. induction s as [|c s IH]; intros acc.
  - destruct sep; [done|]. simpl. by rewrite app_nil_r.
  - cbn [JS.split_go JS.indexOf].
    destruct (JS.startsWith sep (c :: s)) eqn:E.
    + apply startsWith_length in E. simpl in E.
      rewrite split_go_skip by lia.
      destruct sep as [|a sep]; [done|]. simpl.
      by rewrite app_nil_r, Nat.sub_0_r.
    + rewrite IH. destruct (JS.indexOf sep s) as [j|]; simpl.
      * by rewrite reverse_cons, <-app_assoc.
      * by rewrite reverse_cons, <-app_assoc.
Qed.

Lemma split_unfold sep s :
  sep ≠ [] →
  JS.split sep s =
  match JS.indexOf sep s with
  | None => [s]
  | Some j => take j s :: JS.split sep (drop (j + length sep) s)
  end.
Proof.
  intros Hsep. unfold JS.split. destruct sep as [|a sep]; [done|].
  by rewrite split_go_unfold.
Qed.

Lemma split_go_nonempty sep k acc s : JS.split_go sep k acc s ≠ [].
Proof.
  revert k acc. induction s as [|c s IH]; intros k acc; simpl; [done|].
  destruct k; [|done]. by destruct (JS.startsWith _ _).
Qed.

(** Splitting on a single code unit. *)
Lemma split_go_one_end c acc t :
  c ∉ t → JS.split_go [c] 0 acc t = [reverse acc ++ t].
Proof.
  revert acc. induction t as [|x t IH]; intros acc Hc; simpl.
  - by rewrite app_nil_r.
  - apply not_elem_of_cons in Hc as [Hx Ht].
    destruct (N.eqb_spec c x); [done|]. simpl.
    rewrite IH by done. by rewrite reverse_cons, <-app_assoc.
Qed.

Lemma split_go_one_sep c acc t r :
  c ∉ t →
  JS.split_go [c] 0 acc (t ++ c :: r) =
  (reverse acc ++ t) :: JS.split_go [c] 0 [] r.
Proof.
  revert acc. induction t as [|x t IH]; intros acc Hc; simpl.
  - by rewrite N.eqb_refl, app_nil_r.
  - apply not_elem_of_cons in Hc as [Hx Ht].
    destruct (N.eqb_spec c x); [done|]. simpl.
    rewrite IH by done. by rewrite reverse_cons, <-app_assoc.
Qed.

(** No piece of a split on [c] contains [c]. *)
Lemma split_go_one_free c acc s t :
  c ∉ acc → t ∈ JS.split_go [c] 0 acc s → c ∉ t.
Proof.
  revert acc. induction s as [|x s IH]; intros acc Hacc; simpl.
  - intros ->%list_elem_of_singleton. by rewrite elem_of_reverse.
  - destruct (N.eqb_spec c x) as [->|Hne]; simpl.
    + intros [->|H]%elem_of_cons.
      * by rewrite elem_of_reverse.
      * eapply IH; [|done]. apply not_elem_of_nil.
    + apply IH. by apply not_elem_of_cons.
Qed.

Lemma split_one_free c s t : t ∈ JS.split [c] s → c ∉ t.
Proof. apply split_go_one_free, not_elem_of_nil. Qed.

(** [join] undoes [split] and, on pieces free of the separator, [split]
    undoes [join]. *)
Lemma split_join_one c l :
  l ≠ [] → Forall (λ t, c ∉ t) l → JS.split [c] (JS.join [c] l) = l.
Proof.
  intros Hl Hfree. unfold JS.split.
  induction Hfree as [|t l Ht Hfree IH]; [done|].
  destruct l as [|t' l].
  - simpl. by rewrite split_go_one_end.
  - change (JS.join [c] (t :: t' :: l)) with (t ++ c :: JS.join [c] (t' :: l)).
    rewrite split_go_one_sep by done. simpl. f_equal. by apply IH.
Qed.

Lemma join_split_go_one c acc s :
  JS.join [c] (JS.split_go [c] 0 acc s) = reverse acc ++ s.
Proof.
  revert acc. induction s as [|x s IH]; intros acc; simpl.
  - by rewrite app_nil_r.
  - destruct (N.eqb_spec c x) as [->|Hne]; simpl.
    + specialize (IH []).
      destruct (JS.split_go [x] 0 [] s) eqn:E;
        [by apply split_go_nonempty in E|].
      by rewrite IH.
    + rewrite IH. by rewrite reverse_cons, <-app_assoc.
Qed.

Lemma join_split_one c s : JS.join [c] (JS.split [c] s) = s.
Proof. apply join_split_go_one. Qed.
End split_facts.

Section order_facts.
Implicit Types (a b c : list N) (l : list (list N)).

Lemma ltb_irrefl a : JS.ltb a a = false.
Proof.
  induction a as [|x a IH]; simpl; [done|].
  by rewrite N.ltb_irrefl, N.eqb_refl, IH.
Qed.

Lemma ltb_asym a b : JS.ltb a b = true → JS.ltb b a = false.
Proof.
  revert b. induction a as [|x a IH]; intros [|y b]; simpl; try done.
  destruct (N.ltb_spec x y), (N.ltb_spec y x), (N.eqb_spec x y),
    (N.eqb_spec y x); simpl; try done; try lia.
  apply IH.
Qed.

Lemma ltb_trans a b c :
  JS.ltb a b = true → JS.ltb b c = true → JS.ltb a c = true.
Proof.
  revert b c. induction a as [|x a IH]; intros [|y b] [|z c]; simpl; try done.
  destruct (N.ltb_spec x y), (N.ltb_spec y z), (N.ltb_spec x z),
    (N.eqb_spec x y), (N.eqb_spec y z), (N.eqb_spec x z);
    simpl; try done; try lia.
  apply IH.
Qed.

(** Two strings neither of which is below the other are the same. *)
Lemma ltb_connex a b : JS.ltb a b = false → JS.ltb b a = false → a = b.
Proof.
  revert b. induction a as [|x a IH]; intros [|y b]; simpl; try done.
  destruct (N.ltb_spec x y), (N.ltb_spec y x), (N.eqb_spec x y),
    (N.eqb_spec y x); simpl; try done; try lia.
  intros. subst. f_equal. by apply IH.
Qed.

(** [ltb] is the lexicographic order: [a < b] when [a] is a proper prefix
    of [b] or the two differ first at a code unit that is smaller in [a]. *)
Lemma ltb_lexicographic a b :
  JS.ltb a b = true ↔
  (∃ y r, b = a ++ y :: r) ∨
  (∃ p x y a' b', a = p ++ x :: a' ∧ b = p ++ y :: b' ∧ (x < y)%N).
Proof.
  split.
  - revert b. induction a as [|x a IH]; intros [|y b]; simpl; try done.
    + intros _. left. by exists y, b.
    + destruct (N.ltb_spec x y) as [Hlt|Hge]; simpl.
      * intros _. right. by exists [], x, y, a, b.
      * destruct (N.eqb_spec x y) as [->|Hne]; [|done]. simpl.
        intros [(z & r & ->)|(p & x' & y' & a' & b' & -> & -> & Hlt)]%IH.
        -- left. by exists z, r.
        -- right. by exists (y :: p), x', y', a', b'.
  - intros [(y & r & ->)|(p & x & y & a' & b' & -> & -> & Hlt)].
    + induction a as [|x a IH]; simpl; [done|].
      by rewrite N.eqb_refl, IH, orb_true_r.
    + induction p as [|z p IH]; simpl.
      * by apply N.ltb_lt in Hlt as ->.
      * by rewrite N.eqb_refl, IH, orb_true_r.
Qed.

#[local] Instance le_total : Total JS.le.
Proof.
  intros a b. unfold JS.le.
  destruct (JS.ltb b a) eqn:E; [|by left]. right. by apply ltb_asym.
Qed.

#[local] Instance le_trans : Transitive JS.le.
Proof.
  intros a b c. unfold JS.le. intros Hab Hbc.
  destruct (JS.ltb c a) eqn:Hca; [|done].
  destruct (JS.ltb a b) eqn:E.
  - by rewrite (ltb_trans c a b) in Hbc.
  - apply (ltb_connex a b) in E; [|done]. congruence.
Qed.

#[local] Instance le_antisym : AntiSymm (=) JS.le.
Proof. intros a b Hab Hba. by apply ltb_connex. Qed.

Lemma sort_Sorted l : Sorted JS.le (JS.sort l).
Proof. apply (Sorted_merge_sort JS.le). Qed.

Lemma sort_Permutation l : JS.sort l ≡ₚ l.
Proof. apply (merge_sort_Permutation JS.le). Qed.

Lemma elem_of_sort x l : x ∈ JS.sort l ↔ x ∈ l.
Proof. by rewrite sort_Permutation. Qed.

Lemma sort_NoDup l : NoDup l → NoDup (JS.sort l).
Proof. by rewrite sort_Permutation. Qed.

(** The result of [sort] is the only sorted arrangement of the entries,
    whatever algorithm the engine runs. *)
Lemma sort_unique l l' :
  l' ≡ₚ l → Sorted JS.le l' → l' = JS.sort l.
Proof.
  intros Hp Hs.
  apply (Sorted_unique JS.le); [done|apply sort_Sorted|].
  by rewrite sort_Permutation.
Qed.

(** Without duplicates, consecutive entries are strictly increasing. *)
Lemma sort_strict l :
  NoDup l → StronglySorted (λ a b, JS.ltb a b = true) (JS.sort l).
Proof.
  intros Hnd%sort_NoDup.
  pose proof (StronglySorted_merge_sort JS.le l) as Hs.
  fold (JS.sort l) in Hs.
  induction Hs as [|x xs Hxs IH Hall]; [constructor|].
  apply NoDup_cons in Hnd as [Hx Hnd].
  constructor; [by apply IH|].
  apply Forall_forall. intros y Hy.
  rewrite Forall_forall in Hall. specialize (Hall y Hy).
  unfold JS.le in Hall.
  destruct (JS.ltb x y) eqn:E; [done|].
  apply (ltb_connex x y) in E; [|done]. by subst.
Qed.
End order_facts.

(** ** Facts about the two extractors *)

(** From here on the built-ins are used through their lemmas. *)
#[local] Arguments js : simpl never.
#[local] Arguments JS.split : simpl never.
#[local] Arguments JS.join : simpl never.
#[local] Arguments JS.trim : simpl never.
#[local] Arguments JS.includes : simpl never.
#[local] Arguments JS.sort : simpl never.

Section completion_facts.
Context {A B : Type}.

Lemma bind_Normal (c : completion A) (k : A → completion B) b :
  c ≫= k = Normal b ↔ ∃ a, c = Normal a ∧ k a = Normal b.
Proof.
  destruct c as [a|e]; simpl.
  - split; [by exists a | by intros (? & [= <-] & ?)].
  - split; [done | by intros (? & [=] & _)].
Qed.

Lemma bind_Throw (c : completion A) (k : A → completion B) e :
  c ≫= k = Throw e ↔ c = Throw e ∨ ∃ a, c = Normal a ∧ k a = Throw e.
Proof.
  destruct c as [a|e']; simpl.
  - split; [right; by exists a | by intros [[=]|(? & [= <-] & ?)]].
  - split; [intros [= <-]; by left | by intros [[= <-]|(? & [=] & _)]].
Qed.
End completion_facts.

Section mismatch_facts.
Implicit Types (content rows : list (list (list N))) (row : list (list N)).
Implicit Types (type : mode) (output out : list mismatch).

(** With both cells present the body raises nothing. *)
Lemma mismatchOfRow_cells type row source dest :
  row !! sourceIdx type = Some source →
  row !! destIdx type = Some dest →
  mismatchOfRow type row =
  Normal (if decide (source = []) then Tags [Some dest]
          else if decide (dest = []) then Sentinel
          else let filtered :=
                 filter (λ t, t ∉ JS.split (js ",") source)
                        (JS.split (js ",") dest) in
               if decide (filtered = []) then Sentinel
               else Tags [Some (JS.join (js ",") filtered)]).
Proof.
  intros Hs Hd. unfold mismatchOfRow. cbv zeta. rewrite Hs, Hd.
  destruct (decide (Some source = Some [])) as [[= ->]|Hs'].
  { by destruct (decide _). }
  destruct (decide (source = [])) as [->|_]; [done|].
  destruct (decide (Some dest = Some [])) as [[= ->]|Hd'].
  { by destruct (decide _). }
  destruct (decide (dest = [])) as [->|_]; [done|].
  simpl. by destruct (filter _ _).
Qed.

Lemma mismatchLoop_Normal type rows output out :
  mismatchLoop type rows output = Normal out ↔
  ∃ es, out = output ++ es ∧
        Forall2 (λ row e, mismatchOfRow type row = Normal e) rows es.
Proof.
  revert output. induction rows as [|row rows IH]; intros output; simpl.
  - split.
    + intros [= <-]. exists []. by rewrite app_nil_r.
    + intros (es & -> & ->%Forall2_nil_inv_l). by rewrite app_nil_r.
  - rewrite bind_Normal. split.
    + intros (e & He & (es & -> & Hes)%IH).
      exists (e :: es). rewrite <-app_assoc. split; [done|].
      by constructor.
    + intros (es & -> & (e & es' & He & Hes & ->)%Forall2_cons_inv_l).
      exists e. split; [done|]. apply IH. exists es'.
      by rewrite <-app_assoc.
Qed.

Lemma getMismatchedTags_Normal content type out :
  getMismatchedTags content type = Normal out ↔
  Forall2 (λ row e, mismatchOfRow type row = Normal e) (drop 1 content) out.
Proof.
  unfold getMismatchedTags. rewrite mismatchLoop_Normal. split.
  - by intros (es & -> & Hes).
  - intros H. by exists out.
Qed.

(** The entry of a data row is what the loop body yields for it. *)
Lemma getMismatchedTags_lookup content type out i row :
  getMismatchedTags content type = Normal out →
  content !! S i = Some row →
  ∃ e, out !! i = Some e ∧ mismatchOfRow type row = Normal e.
Proof.
  intros H%getMismatchedTags_Normal Hrow.
  assert (drop 1 content !! i = Some row) as Hi
    by (by rewrite lookup_drop).
  destruct (Forall2_lookup_l _ _ _ _ _ H Hi) as (e & He & Hbody).
  by exists e.
Qed.

Lemma getMismatchedTags_length content type out :
  getMismatchedTags content type = Normal out →
  length out = length content - 1.
Proof.
  intros H%getMismatchedTags_Normal%Forall2_length.
  rewrite length_drop in H. lia.
Qed.

(** The loop ends normally as soon as every body does. *)
Lemma getMismatchedTags_total content type :
  (∀ row, row ∈ drop 1 content → ∃ e, mismatchOfRow type row = Normal e) →
  ∃ out, getMismatchedTags content type = Normal out.
Proof.
  intros Hall.
  cut (∃ out, Forall2 (λ row e, mismatchOfRow type row = Normal e)
                      (drop 1 content) out).
  { intros [out H]. exists out. by apply getMismatchedTags_Normal. }
  induction (drop 1 content) as [|row rows IH].
  - by exists [].
  - destruct (Hall row) as [e He]; [by left|].
    destruct IH as [out Hout]; [intros r Hr; apply Hall; by right|].
    exists (e :: out). by constructor.
Qed.

Lemma row_cells row i : i < length row → ∃ s, row !! i = Some s.
Proof. intros H. by apply lookup_lt_is_Some_2. Qed.

Lemma mismatchOfRow_wide type row :
  4 ≤ length row → ∃ e, mismatchOfRow type row = Normal e.
Proof.
  intros Hlen.
  destruct (row_cells row (sourceIdx type)) as [s Hs];
    [destruct type; simpl; lia|].
  destruct (row_cells row (destIdx type)) as [d Hd];
    [destruct type; simpl; lia|].
  rewrite (mismatchOfRow_cells type row s d) by done. eauto.
Qed.
End mismatch_facts.

Section l1_facts.
Implicit Types (content rows : list (list (list N))) (row : list (list N)).
Implicit Types (flag cell x : list N) (u flags : list (list N)).

Lemma elem_of_Set_add x y u : y ∈ JS.Set_add x u ↔ y = x ∨ y ∈ u.
Proof.
  unfold JS.Set_add. destruct (decide (x ∈ u)).
  - split; [by right | by intros [->|?]].
  - rewrite elem_of_app, list_elem_of_singleton.
    split; intros [?|?]; eauto.
Qed.

Lemma NoDup_Set_add x u : NoDup u → NoDup (JS.Set_add x u).
Proof.
  intros Hu. unfold JS.Set_add. destruct (decide (x ∈ u)); [done|].
  apply NoDup_app. split_and!; [done| |apply NoDup_singleton].
  intros y Hy ->%list_elem_of_singleton. done.
Qed.

(** A token that contains the delimiter has a second piece, the part
    between the first delimiter and the next. *)
Lemma split_second sep flag :
  sep ≠ [] → JS.includes sep flag = true →
  JS.split sep flag !! 1 = Some (secondPiece sep flag).
Proof.
  intros Hsep Hinc. unfold JS.includes in Hinc.
  destruct (JS.indexOf sep flag) as [j|] eqn:Ej; [|done].
  rewrite split_unfold, Ej by done. simpl.
  unfold secondPiece, afterFirst, beforeFirst. rewrite Ej.
  rewrite split_unfold by done.
  by destruct (JS.indexOf sep (drop (j + length sep) flag)).
Qed.

Lemma elem_of_allFlagsOfRow row flag :
  flag ∈ allFlagsOfRow row ↔
  ∃ cell, (row !! 2 = Some cell ∨ row !! 3 = Some cell) ∧ cell ≠ [] ∧
          flag ∈ JS.split (js ",") cell.
Proof.
  unfold allFlagsOfRow. cbv zeta. rewrite list_elem_of_join. split.
  - intros (l & Hflag & (cell & -> & Hcell)%list_elem_of_fmap).
    apply list_elem_of_omap in Hcell as (v & Hv & Hid).
    simpl in Hid. subst v.
    apply list_elem_of_filter in Hv as [Ht Hv].
    exists cell. split_and!; [|by intros ->|done].
    apply elem_of_cons in Hv as [Hv|Hv%list_elem_of_singleton]; eauto.
  - intros (cell & Hcell & Hne & Hflag).
    exists (JS.split (js ",") cell). split; [done|].
    apply list_elem_of_fmap. exists cell. split; [done|].
    apply list_elem_of_omap. exists (Some cell). split; [|done].
    apply list_elem_of_filter. split; [by destruct cell|].
    destruct Hcell as [<-|<-]; [by left|right; by left].
Qed.

Lemma l1ForEach_spec flags u :
  ∃ u', l1ForEach flags u = Normal u' ∧
        (NoDup u → NoDup u') ∧
        ∀ x, x ∈ u' ↔
             x ∈ u ∨ ∃ flag, flag ∈ flags ∧
                             JS.includes (js "::") flag = true ∧
                             x = JS.trim (secondPiece (js "::") flag).
Proof.
  revert u. induction flags as [|flag flags IH]; intros u; simpl.
  - exists u. split_and!; [done..|]. intros x. split; [by left|].
    by intros [?|(? & ?%elem_of_nil & _)].
  - destruct (JS.includes (js "::") flag) eqn:Einc.
    + rewrite split_second by done. simpl.
      destruct (IH (JS.Set_add (JS.trim (secondPiece (js "::") flag)) u))
        as (u' & -> & Hnd & Hmem).
      exists u'. split_and!; [done|intros ?; by apply Hnd, NoDup_Set_add|].
      intros x. rewrite Hmem, elem_of_Set_add. split.
      * intros [[->|?]|(f & ? & ? & ?)]; [right|by left|right].
        -- exists flag. split_and!; [by left|done..].
        -- exists f. split_and!; [by right|done..].
      * intros [?|(f & [->|?]%elem_of_cons & ? & ->)]; [by left; right| |].
        -- by left; left.
        -- right. by exists f.
    + destruct (IH u) as (u' & -> & Hnd & Hmem).
      exists u'. split_and!; [done..|].
      intros x. rewrite Hmem. split.
      * intros [?|(f & ? & ? & ?)]; [by left|right].
        exists f. split_and!; [by right|done..].
      * intros [?|(f & [->|?]%elem_of_cons & ? & ->)]; [by left| |].
        -- congruence.
        -- right. by exists f.
Qed.

Lemma l1Loop_spec rows u :
  ∃ u', l1Loop rows u = Normal u' ∧
        (NoDup u → NoDup u') ∧
        ∀ x, x ∈ u' ↔
             x ∈ u ∨ ∃ row flag, row ∈ rows ∧ flag ∈ allFlagsOfRow row ∧
                                 JS.includes (js "::") flag = true ∧
                                 x = JS.trim (secondPiece (js "::") flag).
Proof.
  revert u. induction rows as [|row rows IH]; intros u; simpl.
  - exists u. split_and!; [done..|]. intros x. split; [by left|].
    by intros [?|(? & ? & ?%elem_of_nil & _)].
  - destruct (l1ForEach_spec (allFlagsOfRow row) u) as (u1 & -> & Hnd1 & Hm1).
    simpl. destruct (IH u1) as (u' & -> & Hnd & Hmem).
    exists u'. split_and!; [done|by intros ?%Hnd1%Hnd|].
    intros x. rewrite Hmem, Hm1. split.
    + intros [[?|(f & ? & ? & ?)]|(r & f & ? & ? & ? & ?)].
      * by left.
      * right. exists row, f. split_and!; [by left|done..].
      * right. exists r, f. split_and!; [by right|done..].
    + intros [?|(r & f & [->|?]%elem_of_cons & ? & ? & ?)].
      * by left; left.
      * left; right. by exists f.
      * right. by exists r, f.
Qed.
End l1_facts.

Section occurrence_facts.
Implicit Types (s sep a b : list N).

(** [includes] holds exactly of the strings in which [sep] occurs. *)
Lemma includes_spec sep s :
  JS.includes sep s = true ↔ ∃ a b, s = a ++ sep ++ b.
Proof.
  unfold JS.includes. split.
  - destruct (JS.indexOf sep s) as [j|] eqn:Ej; [|done]. intros _.
    apply indexOf_Some in Ej as [Hj%startsWith_inv _].
    exists (take j s), (drop (length sep) (drop j s)).
    by rewrite <-Hj, take_drop.
  - intros (a & b & ->).
    destruct (JS.indexOf sep (a ++ sep ++ b)) as [j|] eqn:Ej; [done|].
    apply (indexOf_None _ _ (length a)) in Ej.
    by rewrite drop_app_length, startsWith_app in Ej.
Qed.

(** [afterFirst] is what follows the leftmost occurrence. *)
Lemma afterFirst_spec sep s j :
  JS.indexOf sep s = Some j → s = take j s ++ sep ++ afterFirst sep s.
Proof.
  intros Ej. unfold afterFirst. rewrite Ej.
  apply indexOf_Some in Ej as [Hj%startsWith_inv _].
  by rewrite <-drop_drop, <-Hj, take_drop.
Qed.

Lemma trimStart_blank s :
  Forall (λ c, JS.isWhiteSpace c = true) s → JS.trimStart s = [].
Proof. induction 1 as [|c s Hc _ IH]; simpl; [done|]. by rewrite Hc. Qed.

Lemma trim_blank s :
  Forall (λ c, JS.isWhiteSpace c = true) s → JS.trim s = [].
Proof.
  intros H. unfold JS.trim, JS.trimEnd. by rewrite (trimStart_blank s).
Qed.

(** [trimStart] removes a run of white space and stops at the first
    other code unit. *)
Lemma trimStart_spec s :
  ∃ ws, s = ws ++ JS.trimStart s ∧
        Forall (λ c, JS.isWhiteSpace c = true) ws ∧
        ∀ c r, JS.trimStart s = c :: r → JS.isWhiteSpace c = false.
Proof.
  induction s as [|c s (ws & Hs & Hws & Hhd)]; simpl.
  - exists []. split_and!; [done|constructor|done].
  - destruct (JS.isWhiteSpace c) eqn:Ec.
    + exists (c :: ws). split_and!; [by rewrite Hs at 1|by constructor|done].
    + exists []. split_and!; [done|constructor|]. by intros ? ? [= <- _].
Qed.

(** [trim] removes a run of white space on either side and leaves a
    string that neither starts nor ends with white space. *)
Lemma trim_spec s :
  ∃ ws1 ws2, s = ws1 ++ JS.trim s ++ ws2 ∧
             Forall (λ c, JS.isWhiteSpace c = true) ws1 ∧
             Forall (λ c, JS.isWhiteSpace c = true) ws2 ∧
             (∀ c r, JS.trim s = c :: r → JS.isWhiteSpace c = false) ∧
             (∀ c r, JS.trim s = r ++ [c] → JS.isWhiteSpace c = false).
Proof.
  destruct (trimStart_spec s) as (ws1 & Hs & Hws1 & Hhd).
  destruct (trimStart_spec (reverse (JS.trimStart s))) as (ws2 & Hr & Hws2 & Htl).
  exists ws1, (reverse ws2). unfold JS.trim, JS.trimEnd.
  assert (JS.trimStart s =
          reverse (JS.trimStart (reverse (JS.trimStart s))) ++ reverse ws2)
    as Hmid.
  { rewrite <-reverse_app, <-Hr. by rewrite reverse_involutive. }
  split_and!.
  - by rewrite <-Hmid.
  - done.
  - by apply Forall_reverse.
  - intros c r Hc. rewrite Hc in Hmid. by apply (Hhd c (r ++ reverse ws2)).
  - intros c r Hc. apply (Htl c (reverse r)).
    apply (f_equal reverse) in Hc.
    by rewrite reverse_involutive, reverse_app in Hc.
Qed.
End occurrence_facts.

(** ** Facts about the callback *)

Section callback_facts.
#[local] Ltac step := cbn beta iota delta [mbind completion_bind].
Implicit Types (content : list (list (list N))) (headers row : list (list N)).
Implicit Types (st : component).

Lemma headersInvalid_false headers :
  headersInvalid headers = false ↔ headers = expectedHeaders.
Proof.
  split.
  - unfold headersInvalid.
    rewrite !orb_false_iff, !negb_false_iff, !bool_decide_eq_true.
    intros (((((Hlen%Nat.eqb_eq & H0) & H1) & H2) & H3) & H4).
    destruct headers as [|a [|b [|c [|d [|e [|]]]]]]; simplify_eq/=.
    done.
  - by intros ->.
Qed.

Lemma hasQaFlags_keep row : hasQaFlags row → row !! 3 ≠ Some [].
Proof. intros (qa & -> & Hqa). congruence. Qed.

Lemma filterRows_cons_keep row content :
  row !! 3 ≠ Some [] → filterRows (row :: content) = row :: filterRows content.
Proof. intros H. unfold filterRows. by rewrite filter_cons_True. Qed.

Lemma filterRows_cons_drop row content :
  row !! 3 = Some [] → filterRows (row :: content) = filterRows content.
Proof.
  intros H. unfold filterRows. rewrite filter_cons_False; [done|].
  by intros ?.
Qed.

(** The runs of the callback: a bundle made of the filtered grid and the
    results of the three calls on it, with the error cleared; or the
    invalid-format message; or the message of a caught exception. In the
    last two the results stay as they were. *)
Lemma handleFileUpload_cases content st :
  (content !! 0 = Some expectedHeaders ∧
   ∃ o u l,
     getMismatchedTags (filterRows content) over = Normal o ∧
     getMismatchedTags (filterRows content) under = Normal u ∧
     getL1Tags (filterRows content) = Normal l ∧
     handleFileUpload content st =
     {| results := Some (mkResults (filterRows content) o u l);
        error := None |}) ∨
  ((∃ headers, content !! 0 = Some headers ∧ headers ≠ expectedHeaders) ∧
   handleFileUpload content st = setError (Some InvalidCsvFormat) st) ∨
  ((content !! 0 = None ∨
    content !! 0 = Some expectedHeaders ∧
    (getMismatchedTags (filterRows content) over = Throw TypeError ∨
     getMismatchedTags (filterRows content) under = Throw TypeError ∨
     getL1Tags (filterRows content) = Throw TypeError)) ∧
   handleFileUpload content st =
   setError (Some (ErrorProcessingFile TypeError)) st).
Proof.
  unfold handleFileUpload, tryBlock.
  destruct (content !! 0) as [headers|] eqn:Eh; step; [|right; right; eauto].
  destruct (headersInvalid headers) eqn:Ev.
  { right; left. split; [|done]. exists headers. split; [done|].
    intros Heq. apply headersInvalid_false in Heq. congruence. }
  apply headersInvalid_false in Ev as ->.
  destruct (getMismatchedTags (filterRows content) over) as [o|[]] eqn:Eo;
    step; [|right; right; eauto].
  destruct (getMismatchedTags (filterRows content) under) as [u|[]] eqn:Eu;
    step; [|right; right; eauto 6].
  destruct (getL1Tags (filterRows content)) as [l|[]] eqn:El;
    step; [|right; right; eauto 6].
  left. split; [done|]. by exists o, u, l.
Qed.
End callback_facts.

(** ** The mismatch extractor, row by row *)

(** C1. Per-row contract of the mismatch extractor. On a grid whose data rows
    all have the two flag cells the extractor returns a list; and whenever it
    returns one, the entry of a data row (the header at index 0 is skipped)
    with cell [source] at the source index of the mode and cell [dest] at its
    destination index is: the one-element list of [dest] as it is when
    [source] is the empty string, also when [dest] is empty too; the sentinel
    when [source] is not empty and [dest] is; and otherwise, both cells being
    split on the comma, the one-element list of the comma-joined tokens of
    [dest] that equal no token of [source], in the order of [dest] and with
    repetitions kept, or the sentinel when no such token is left. Emptiness
    is equality with the empty string. *)
Theorem C1_mismatch_row_contract (content : grid) (type : mode) :
  ((∀ row, row ∈ drop 1 content → 4 ≤ length row) →
   ∃ output, getMismatchedTags content type = Normal output) ∧
  ∀ output, getMismatchedTags content type = Normal output →
    ∀ i row source dest,
      content !! S i = Some row →
      row !! sourceIdx type = Some source →
      row !! destIdx type = Some dest →
      let sourceTags := JS.split (js ",") source in
      let destTags := JS.split (js ",") dest in
      let filtered := filter (λ t, t ∉ sourceTags) destTags in
      (source = [] → output !! i = Some (Tags [Some dest])) ∧
      (source ≠ [] → dest = [] → output !! i = Some Sentinel) ∧
      (source ≠ [] → dest ≠ [] → filtered ≠ [] →
       output !! i = Some (Tags [Some (JS.join (js ",") filtered)])) ∧
      (source ≠ [] → dest ≠ [] → filtered = [] →
       output !! i = Some Sentinel).
Proof.
  split.
  - intros Hwide. apply getMismatchedTags_total.
    intros row Hrow. by apply mismatchOfRow_wide, Hwide.
  - intros output Hout i row source dest Hrow Hs Hd.
    destruct (getMismatchedTags_lookup _ _ _ _ _ Hout Hrow) as (e & -> & He).
    rewrite (mismatchOfRow_cells type row source dest Hs Hd) in He.
    cbv zeta in *. injection He as <-.
    repeat split; intros; repeat case_decide; congruence.
Qed.

Lemma C1_mismatch_row_contract_witness :
  ∃ output, getMismatchedTags sampleGrid over = Normal output ∧
            output !! 0 = Some (Tags [Some (js "Other")]).
Proof.
  destruct (C1_mismatch_row_contract sampleGrid over) as [Hret Hrows].
  destruct Hret as [output Hout].
  { intros row ->%list_elem_of_singleton. simpl. lia. }
  exists output. split; [exact Hout|].
  destruct (Hrows output Hout 0 sampleRow (js "Spam::L1A")
              (js "Spam::L1A,Other") eq_refl eq_refl eq_refl)
    as (_ & _ & Hdiff & _).
  apply Hdiff; vm_compute; discriminate.
Defined.

(** ** The L1 tags *)

(** C2. Contract of the L1 tag extractor, with the piece of a token that the
    code takes. For every grid the extractor returns a list that is sorted in
    ascending order of code units (hence case-sensitive), has no duplicates,
    and whose members are exactly the strings obtained from a data row, one of
    its two flag cells (index 2 or 3) that is not empty, a token of that cell
    split on the comma, the token containing the delimiter, as the trimmed
    part of the token between its first delimiter and the next delimiter or
    the end of the token. Tokens without the delimiter contribute nothing. *)
Theorem C2_l1_tags_contract (content : grid) :
  ∃ tags, getL1Tags content = Normal tags ∧
          l1Contract (secondPiece (js "::")) content tags.
Proof.
  unfold getL1Tags.
  destruct (l1Loop_spec (drop 1 content) []) as (u & -> & Hnd & Hmem).
  exists (JS.sort u). split; [done|]. split_and!.
  - apply sort_Sorted.
  - apply sort_NoDup, Hnd, NoDup_nil_2.
  - intros x. rewrite elem_of_sort, Hmem. split.
    + intros [[]%elem_of_nil|(row & flag & Hrow & Hflag & Hinc & ->)].
      apply elem_of_allFlagsOfRow in Hflag as (cell & Hcell & Hne & Hflag).
      by exists row, cell, flag.
    + intros (row & cell & flag & Hrow & Hcell & Hne & Hflag & Hinc & ->).
      right. exists row, flag. split_and!; [done| |done..].
      apply elem_of_allFlagsOfRow. by exists cell.
Qed.

(** C2, as worded. With all that follows the first delimiter taken as the
    tag, the contract fails on the token [A::B::C]: the code yields [B], and
    [B::C] is not in its result. *)
Lemma C2_after_first_delimiter_fails :
  ¬ ∃ tags, getL1Tags nestedGrid = Normal tags ∧
            l1Contract (afterFirst (js "::")) nestedGrid tags.
Proof.
  intros (tags & Htags & _ & _ & Hmem).
  assert (tags = [js "B"]) as ->
    by (vm_compute in Htags; by injection Htags as <-).
  assert (js "B::C" ∈ [js "B"]) as Hin.
  { apply Hmem. exists nestedRow, (js "A::B::C"), (js "A::B::C").
    split_and!; [by left|by right|done|by left|done..]. }
  by apply list_elem_of_singleton in Hin.
Qed.

(** ** The row filter and the header check *)

(** What the row filter keeps. For every grid the result is a subsequence
    of the grid, hence not longer than the grid; every subsequence of the
    grid made of rows with a non-empty cell 3 is a subsequence of the
    result; when all rows of the grid have a cell 3, every row of the result
    has a non-empty cell 3; and a first row that passes the header check is
    kept. *)
Lemma filterRows_contract (content : grid) :
  filterRows content `sublist_of` content ∧
  length (filterRows content) ≤ length content ∧
  (∀ rows, rows `sublist_of` content → Forall hasQaFlags rows →
           rows `sublist_of` filterRows content) ∧
  ((∀ row, row ∈ content → 4 ≤ length row) →
   Forall hasQaFlags (filterRows content)) ∧
  (∀ header rest, content = header :: rest → headersInvalid header = false →
                  filterRows content = header :: filterRows rest).
Proof.
  split_and!.
  - apply sublist_filter.
  - apply length_filter.
  - intros rows Hsub Hall. unfold filterRows.
    induction Hsub as [|x l1 l2 Hsub IH|x l1 l2 Hsub IH].
    + constructor.
    + apply Forall_cons in Hall as [Hx Hall].
      rewrite filter_cons_True by by apply hasQaFlags_keep.
      constructor. by apply IH.
    + rewrite filter_cons. destruct (decide _); [constructor|]; by apply IH.
  - intros Hwide. apply Forall_forall.
    intros row [Hne Hrow]%list_elem_of_filter.
    destruct (row_cells row 3) as [qa Hqa]; [by apply Hwide|].
    exists qa. split; [done|]. congruence.
  - intros header rest -> ->%headersInvalid_false.
    by apply filterRows_cons_keep.
Qed.

(** C3. The row filter on the grid of a file that ends with a line break.
    The grid has the expected header, so the run reaches the filter; the
    filter returns the grid unchanged, and so keeps the last row, the single
    empty cell, which has no cell at index 3 at all: a row of the output
    without a non-empty cell 3, and an empty row that is not filtered out. *)
Theorem C3_empty_row_passes_filter :
  trailingLineGrid !! 0 = Some expectedHeaders ∧
  headersInvalid expectedHeaders = false ∧
  filterRows trailingLineGrid = trailingLineGrid ∧
  [[]] ∈ filterRows trailingLineGrid ∧
  ([[]] : list (list N)) !! 3 = None.
Proof.
  split_and!; [reflexivity..| |reflexivity].
  right. right. left.
Qed.

(** C4. The header check. The condition that guards the analysis is false
    exactly for the headers made of the five expected cells in their order. A
    run reports the invalid-format error exactly when the grid has a first
    row and that row differs from the expected one; such a run changes
    nothing but the error. Whenever the first row is not the expected one,
    the run ends with an error set and with the results as they were: no
    bundle, whole or partial, is stored. *)
Theorem C4_header_validator (content : grid) (st : component) :
  (∀ headers, headersInvalid headers = false ↔
              headers = [js "Task Link"; js "Actioned Date";
                         js "All Agent Flags"; js "All QA Flags"; js "Agent"]) ∧
  (error (handleFileUpload content st) = Some InvalidCsvFormat ↔
   ∃ headers, content !! 0 = Some headers ∧ headers ≠ expectedHeaders) ∧
  (∀ headers, content !! 0 = Some headers → headers ≠ expectedHeaders →
              handleFileUpload content st =
              {| results := results st; error := Some InvalidCsvFormat |}) ∧
  (content !! 0 ≠ Some expectedHeaders →
   results (handleFileUpload content st) = results st ∧
   error (handleFileUpload content st) ≠ None).
Proof.
  split_and!.
  - apply headersInvalid_false.
  - destruct (handleFileUpload_cases content st)
      as [(Hh & o & u & l & _ & _ & _ & ->)|[[Hh ->]|[Hh ->]]]; simpl.
    + split; [done|]. intros (headers & ? & ?). congruence.
    + done.
    + split; [done|]. intros (headers & ? & ?).
      destruct Hh as [?|[? _]]; congruence.
  - intros headers Hh Hne.
    destruct (handleFileUpload_cases content st)
      as [(Hh' & _)|[[_ ->]|[[?|[? _]] _]]]; [congruence|done|congruence..].
  - intros Hne.
    destruct (handleFileUpload_cases content st)
      as [(Hh' & _)|[[_ ->]|[_ ->]]]; [done|done..].
Qed.

Lemma C4_header_validator_witness :
  handleFileUpload [blankHeader; sampleRow] initial =
  {| results := None; error := Some InvalidCsvFormat |}.
Proof.
  destruct (C4_header_validator [blankHeader; sampleRow] initial)
    as (_ & _ & Hreject & _).
  apply (Hreject blankHeader); [reflexivity|].
  intros Heq. vm_compute in Heq. discriminate.
Defined.

(** ** The result bundle *)

(** C5. Lengths in the bundle. A run that ends without error has stored a
    bundle whose grid is the filtered grid; that grid begins with the header,
    and the lists of overtags and of undertags both have one entry less than
    the grid has rows: entry [i] of each list is the entry of row [i + 1]. *)
Theorem C5_bundle_lengths (content : grid) (st : component) :
  error (handleFileUpload content st) = None →
  ∃ r, results (handleFileUpload content st) = Some r ∧
       data r = filterRows content ∧
       1 ≤ length (data r) ∧
       length (overtags r) = length (data r) - 1 ∧
       length (undertags r) = length (data r) - 1 ∧
       ∀ i row, data r !! S i = Some row →
                ∃ eo eu, overtags r !! i = Some eo ∧
                         mismatchOfRow over row = Normal eo ∧
                         undertags r !! i = Some eu ∧
                         mismatchOfRow under row = Normal eu.
Proof.
  destruct (handleFileUpload_cases content st)
    as [(Hh & o & u & l & Ho & Hu & _ & ->)|[[_ ->]|[_ ->]]]; simpl; [|done..].
  intros _. eexists. split; [done|]. simpl. split_and!.
  - done.
  - destruct content as [|h rest]; [done|]. simpl in Hh. injection Hh as ->.
    rewrite filterRows_cons_keep by done. simpl. lia.
  - by apply getMismatchedTags_length in Ho.
  - by apply getMismatchedTags_length in Hu.
  - intros i row Hrow.
    destruct (getMismatchedTags_lookup _ _ _ _ _ Ho Hrow) as (eo & ? & ?).
    destruct (getMismatchedTags_lookup _ _ _ _ _ Hu Hrow) as (eu & ? & ?).
    by exists eo, eu.
Qed.

Lemma C5_bundle_lengths_witness :
  ∃ r, results (handleFileUpload sampleGrid initial) = Some r ∧
       length (overtags r) = length (data r) - 1 ∧
       length (undertags r) = length (data r) - 1.
Proof.
  destruct (C5_bundle_lengths sampleGrid initial eq_refl)
    as (r & Hr & _ & _ & Ho & Hu & _).
  exists r. split_and!; [exact Hr|exact Ho|exact Hu].
Defined.

(** ** Overtags and undertags *)

Section difference_facts.
Implicit Types (t : list N) (S D l : list (list N)).

Lemma filter_nil_subset S D t :
  filter (λ t, t ∉ S) D = [] → t ∈ D → t ∈ S.
Proof.
  intros Hnil Ht. destruct (decide (t ∈ S)) as [|Hn]; [done|].
  assert (t ∈ filter (λ t, t ∉ S) D) as Hin by by apply list_elem_of_filter.
  rewrite Hnil in Hin. by apply elem_of_nil in Hin.
Qed.

(** The tokens of the joined difference are the difference. *)
Lemma tokensOf_difference S cell :
  let filtered := filter (λ t, t ∉ S) (JS.split (js ",") cell) in
  filtered ≠ [] →
  tokensOf (Tags [Some (JS.join (js ",") filtered)]) = filtered.
Proof.
  intros filtered Hne. simpl. rewrite app_nil_r.
  change (js ",") with [44%N] in *. apply split_join_one; [done|].
  apply Forall_forall. intros x [_ Hx]%list_elem_of_filter.
  by eapply split_one_free.
Qed.
End difference_facts.

(** C6. What an overtag is in the code. For every data row with both flag
    cells not empty, every tag token of the entry of the row in the list of
    overtags is one of the agent flags of the row (cell 2) and none of its QA
    flags (cell 3). *)
Theorem C6_overtags_are_agent_only (content : grid) (output : list mismatch)
    (i : nat) (row : list (list N)) (agent qa : list N) (e : mismatch)
    (t : list N) :
  getMismatchedTags content over = Normal output →
  content !! S i = Some row →
  row !! 2 = Some agent → row !! 3 = Some qa →
  agent ≠ [] → qa ≠ [] →
  output !! i = Some e →
  t ∈ tokensOf e →
  t ∈ JS.split (js ",") agent ∧ t ∉ JS.split (js ",") qa.
Proof.
  intros Hout Hrow Ha Hq Hane Hqne He Ht.
  destruct (getMismatchedTags_lookup _ _ _ _ _ Hout Hrow) as (e' & He' & Hbody).
  rewrite He in He'. injection He' as <-.
  rewrite (mismatchOfRow_cells over row qa agent Hq Ha) in Hbody.
  destruct (decide (qa = [])); [done|].
  destruct (decide (agent = [])); [done|].
  cbv zeta in Hbody.
  destruct (decide (filter _ _ = [])) as [|Hne]; injection Hbody as <-.
  - by apply elem_of_nil in Ht.
  - rewrite tokensOf_difference in Ht by done.
    apply list_elem_of_filter in Ht as [? ?]. done.
Qed.

Lemma C6_overtags_are_agent_only_witness :
  js "Other" ∈ JS.split (js ",") (js "Spam::L1A,Other") ∧
  js "Other" ∉ JS.split (js ",") (js "Spam::L1A").
Proof.
  apply (C6_overtags_are_agent_only sampleGrid [Tags [Some (js "Other")]] 0
           sampleRow (js "Spam::L1A,Other") (js "Spam::L1A")
           (Tags [Some (js "Other")]) (js "Other"));
    try reflexivity; try discriminate.
  vm_compute. left.
Defined.

(** C6, as worded. On the row of the scenario the overtag [Other] is not one
    of the QA flags and is one of the agent flags. *)
Lemma C6_overtag_absent_from_qa_flags :
  ¬ (∀ agent qa e t,
       sampleRow !! 2 = Some agent → sampleRow !! 3 = Some qa →
       agent ≠ [] → qa ≠ [] →
       getMismatchedTags sampleGrid over = Normal [e] →
       t ∈ tokensOf e →
       t ∈ JS.split (js ",") qa ∧ t ∉ JS.split (js ",") agent).
Proof.
  intros Hclaim.
  destruct (Hclaim (js "Spam::L1A,Other") (js "Spam::L1A")
              (Tags [Some (js "Other")]) (js "Other"))
    as [Hqa _]; try reflexivity; try discriminate.
  { vm_compute. left. }
  vm_compute in Hqa. apply list_elem_of_singleton in Hqa. discriminate.
Qed.

(** C7. Agent flags empty. For every data row whose agent-flags cell (2) is
    the empty string and whose QA-flags cell (3) is a non-empty string [X],
    the entry of the row in the list of overtags is the sentinel and its entry
    in the list of undertags is the one-element list of [X] as it is. *)
Theorem C7_empty_agent_cell (content : grid) (outO outU : list mismatch)
    (i : nat) (row : list (list N)) (X : list N) :
  getMismatchedTags content over = Normal outO →
  getMismatchedTags content under = Normal outU →
  content !! S i = Some row →
  row !! 2 = Some [] → row !! 3 = Some X → X ≠ [] →
  outO !! i = Some Sentinel ∧ outU !! i = Some (Tags [Some X]).
Proof.
  intros HoO HoU Hrow H2 H3 HX.
  destruct (getMismatchedTags_lookup _ _ _ _ _ HoO Hrow) as (eo & -> & Ho).
  destruct (getMismatchedTags_lookup _ _ _ _ _ HoU Hrow) as (eu & -> & Hu).
  rewrite (mismatchOfRow_cells over row X [] H3 H2) in Ho.
  rewrite (mismatchOfRow_cells under row [] X H2 H3) in Hu.
  destruct (decide (X = [])); [done|]. simpl in Ho, Hu. by simplify_eq.
Qed.

Lemma C7_empty_agent_cell_witness :
  [Sentinel] !! 0 = Some Sentinel ∧
  [Tags [Some (js "X")]] !! 0 = Some (Tags [Some (js "X")]).
Proof.
  apply (C7_empty_agent_cell [expectedHeaders; emptyAgentRow]
           [Sentinel] [Tags [Some (js "X")]] 0 emptyAgentRow (js "X"));
    try reflexivity; discriminate.
Defined.

(** C7, as worded. With agent flags empty and QA flags [X] the overtags do
    not hold the list of [X] together with the sentinel in the undertags. *)
Lemma C7_over_is_not_the_qa_cell :
  ¬ (getMismatchedTags [expectedHeaders; emptyAgentRow] over =
       Normal [Tags [Some (js "X")]] ∧
     getMismatchedTags [expectedHeaders; emptyAgentRow] under =
       Normal [Sentinel]).
Proof. intros [Hover _]. vm_compute in Hover. discriminate. Qed.

(** C8. Symmetry. For every data row, when the entries of the row in the
    list of overtags and in the list of undertags are both the sentinel, the
    cells 2 and 3 of the row are both present and not empty, and split on the
    comma they have the same tokens, order and repetitions aside. *)
Theorem C8_both_sentinel_only_when_set_equal (content : grid)
    (outO outU : list mismatch) (i : nat) (row : list (list N)) :
  getMismatchedTags content over = Normal outO →
  getMismatchedTags content under = Normal outU →
  content !! S i = Some row →
  outO !! i = Some Sentinel →
  outU !! i = Some Sentinel →
  ∃ agent qa,
    row !! 2 = Some agent ∧ row !! 3 = Some qa ∧
    agent ≠ [] ∧ qa ≠ [] ∧
    ∀ t, t ∈ JS.split (js ",") agent ↔ t ∈ JS.split (js ",") qa.
Proof.
  intros HoO HoU Hrow HsO HsU.
  destruct (getMismatchedTags_lookup _ _ _ _ _ HoO Hrow) as (eo & Heo & Ho).
  destruct (getMismatchedTags_lookup _ _ _ _ _ HoU Hrow) as (eu & Heu & Hu).
  rewrite HsO in Heo. rewrite HsU in Heu. simplify_eq.
  destruct (row !! 2) as [agent|] eqn:H2, (row !! 3) as [qa|] eqn:H3.
  - rewrite (mismatchOfRow_cells over row qa agent H3 H2) in Ho.
    rewrite (mismatchOfRow_cells under row agent qa H2 H3) in Hu.
    destruct (decide (qa = [])); [done|].
    destruct (decide (agent = [])); [done|].
    cbv zeta in Ho, Hu.
    destruct (decide (filter _ _ = [])) as [Hagent|]; [|done].
    destruct (decide (filter _ _ = [])) as [Hqa|]; [|done].
    exists agent, qa. split_and!; [done..|].
    intros t. split; by apply filter_nil_subset.
  - unfold mismatchOfRow in Hu. cbv zeta in Hu. simpl in Hu.
    rewrite H2, H3 in Hu.
    destruct (decide (Some agent = Some [])); [done|].
    destruct (decide (None = Some [])); done.
  - unfold mismatchOfRow in Ho. cbv zeta in Ho. simpl in Ho.
    rewrite H2, H3 in Ho.
    destruct (decide (Some qa = Some [])); [done|].
    destruct (decide (None = Some [])); done.
  - unfold mismatchOfRow in Ho. cbv zeta in Ho. simpl in Ho.
    rewrite H2, H3 in Ho.
    destruct (decide (None = Some [])); done.
Qed.

Lemma C8_both_sentinel_only_when_set_equal_witness :
  ∃ agent qa,
    permutedRow !! 2 = Some agent ∧ permutedRow !! 3 = Some qa ∧
    agent ≠ [] ∧ qa ≠ [] ∧
    ∀ t, t ∈ JS.split (js ",") agent ↔ t ∈ JS.split (js ",") qa.
Proof.
  apply (C8_both_sentinel_only_when_set_equal [expectedHeaders; permutedRow]
           [Sentinel] [Sentinel] 0 permutedRow); reflexivity.
Defined.

(** ** Totality *)

(** What returns. On every grid the L1 tag extractor returns a list. The
    mismatch extractor returns a list, in either mode, on every grid whose
    data rows all have the cells 2 and 3. On every grid and from every state,
    a run of the callback ends in a state: either the error is cleared and
    the results are a whole bundle, made of the filtered grid and of what the
    three extractor calls return on it, or an error message is set and the
    results are those of the state before the run. *)
Lemma extractors_and_callback_return (content : grid) (st : component) :
  (∃ tags, getL1Tags content = Normal tags) ∧
  (∀ type, (∀ row, row ∈ drop 1 content → 4 ≤ length row) →
           ∃ output, getMismatchedTags content type = Normal output) ∧
  ((∃ r, handleFileUpload content st = {| results := Some r; error := None |} ∧
         data r = filterRows content ∧
         getMismatchedTags (data r) over = Normal (overtags r) ∧
         getMismatchedTags (data r) under = Normal (undertags r) ∧
         getL1Tags (data r) = Normal (l1Tags r)) ∨
   (∃ m, handleFileUpload content st =
         {| results := results st; error := Some m |})).
Proof.
  split_and!.
  - unfold getL1Tags.
    destruct (l1Loop_spec (drop 1 content) []) as (u & -> & _). simpl. eauto.
  - intros type Hwide. apply getMismatchedTags_total.
    intros row Hrow. by apply mismatchOfRow_wide, Hwide.
  - destruct (handleFileUpload_cases content st)
      as [(_ & o & u & l & Ho & Hu & Hl & ->)|[[_ ->]|[_ ->]]].
    + left. by eexists (mkResults _ o u l).
    + right. by eexists.
    + right. by eexists.
Qed.

(** C9. The mismatch extractor on the grid of a file that ends with a line
    break. The last row, the single empty cell, has no cell 2 and no cell 3
    and passes the row filter; the extractor calls [split] on [undefined] and
    raises a [TypeError], so it returns no list; the callback catches the
    exception and the run of a well-formed file ends with the processing
    error and no results. *)
Lemma C9_mismatch_extractor_raises :
  getMismatchedTags (filterRows trailingLineGrid) over = Throw TypeError ∧
  (¬ ∃ output,
       getMismatchedTags (filterRows trailingLineGrid) over = Normal output) ∧
  handleFileUpload trailingLineGrid initial =
  {| results := None; error := Some (ErrorProcessingFile TypeError) |}.
Proof.
  split_and!; [reflexivity| |reflexivity].
  intros [output Hout]. vm_compute in Hout. discriminate.
Qed.

(** ** The empty L1 tag *)

(** C10. The empty string as an L1 tag. There is a grid on which the list of
    L1 tags contains the empty string: the token [Spam::] gives it. In
    general, a token of a flag cell of a data row whose first delimiter is
    followed by nothing or by white space only puts the empty string into the
    list. *)
Theorem C10_empty_l1_tag :
  (∃ tags, getL1Tags spamGrid = Normal tags ∧ [] ∈ tags) ∧
  ∀ (content : grid) row flag,
    row ∈ drop 1 content →
    flag ∈ allFlagsOfRow row →
    JS.includes (js "::") flag = true →
    Forall (λ c, JS.isWhiteSpace c = true) (afterFirst (js "::") flag) →
    ∃ tags, getL1Tags content = Normal tags ∧ [] ∈ tags.
Proof.
  split.
  - exists [[]]. split; [reflexivity|by left].
  - intros content row flag Hrow Hflag Hinc Hblank. unfold getL1Tags.
    destruct (l1Loop_spec (drop 1 content) []) as (u & -> & _ & Hmem).
    exists (JS.sort u). split; [done|].
    rewrite elem_of_sort, Hmem. right. exists row, flag.
    split_and!; [done..|]. symmetry. apply trim_blank.
    unfold secondPiece, beforeFirst.
    destruct (JS.indexOf _ _); [by apply Forall_take|done].
Qed.

Lemma C10_empty_l1_tag_witness :
  ∃ tags, getL1Tags [expectedHeaders; nestedRow; spamRow] = Normal tags ∧
          [] ∈ tags.
Proof.
  destruct C10_empty_l1_tag as [_ Hgeneral].
  apply (Hgeneral [expectedHeaders; nestedRow; spamRow] spamRow (js "Spam::")).
  - right. left.
  - vm_compute. right. left.
  - reflexivity.
  - vm_compute. constructor.
Defined.

(** ** Further properties of the mismatch extractor *)

Section raise_facts.
Implicit Types (content rows : list (list (list N))) (row : list (list N)).
Implicit Types (type : mode) (output out : list mismatch).

(** In an array a cell at index 3 has a cell at index 2 before it. *)
Lemma cell3_cell2 row : is_Some (row !! 3) → is_Some (row !! 2).
Proof.
  intros H%lookup_lt_is_Some. apply lookup_lt_is_Some. lia.
Qed.

(** The body raises exactly on a row without cell 3 whose cell 2 is missing
    or not empty, in either mode. *)
Lemma mismatchOfRow_Throw type row e :
  mismatchOfRow type row = Throw e ↔ row !! 3 = None ∧ row !! 2 ≠ Some [].
Proof.
  destruct e. unfold mismatchOfRow. cbv zeta.
  pose proof (cell3_cell2 row) as H32.
  destruct (row !! 2) as [agent|] eqn:H2, (row !! 3) as [qa|] eqn:H3;
    destruct type; simpl; rewrite ?H2, ?H3;
    repeat case_decide; simplify_eq/=;
    try (destruct (0 <? _));
    try (by destruct H32 as [? ?]; eauto).
  all: split.
  all: try done.
  all: try (by intros [? ?]).
  all: try (intros _; split; [done|congruence]).
Qed.

Lemma mismatchOfRow_cases type row :
  (∃ e, mismatchOfRow type row = Normal e) ∨
  mismatchOfRow type row = Throw TypeError.
Proof. destruct (mismatchOfRow type row) as [e|[]]; eauto. Qed.

Lemma mismatchLoop_Throw type rows output e :
  mismatchLoop type rows output = Throw e ↔
  ∃ row, row ∈ rows ∧ mismatchOfRow type row = Throw e.
Proof.
  destruct e. revert output.
  induction rows as [|row rows IH]; intros output; simpl.
  - split; [done|]. by intros (? & ?%elem_of_nil & _).
  - rewrite bind_Throw. split.
    + intros [Hrow|(a & Ha & (r & Hr & Hthrow)%IH)].
      * exists row. split; [by left|done].
      * exists r. split; [by right|done].
    + intros (r & Hr & Hthrow).
      destruct (mismatchOfRow_cases type row) as [[a Ha]|Hrow]; [|by left].
      right. exists a. split; [done|]. apply IH.
      apply elem_of_cons in Hr as [->|Hr]; [congruence|]. by exists r.
Qed.

Lemma getMismatchedTags_Throw content type e :
  getMismatchedTags content type = Throw e ↔
  ∃ row, row ∈ drop 1 content ∧ row !! 3 = None ∧ row !! 2 ≠ Some [].
Proof.
  unfold getMismatchedTags. rewrite mismatchLoop_Throw.
  split; intros (row & Hrow & H); exists row; split; try done;
    by apply (mismatchOfRow_Throw type row e).
Qed.

Lemma getMismatchedTags_returns content type :
  (∃ output, getMismatchedTags content type = Normal output) ↔
  ∀ row, row ∈ drop 1 content → is_Some (row !! 3) ∨ row !! 2 = Some [].
Proof.
  split.
  - intros [output Hout] row Hrow.
    destruct (row !! 3) as [qa|] eqn:H3; [left; eauto|]. right.
    destruct (decide (row !! 2 = Some [])) as [|Hne]; [done|].
    assert (getMismatchedTags content type = Throw TypeError) as Hthrow
      by (apply getMismatchedTags_Throw; eauto).
    congruence.
  - intros Hall.
    destruct (getMismatchedTags content type) as [output|[]] eqn:E; [eauto|].
    apply getMismatchedTags_Throw in E as (row & Hrow & H3 & H2).
    destruct (Hall row Hrow) as [[qa Hqa]|?]; congruence.
Qed.

Lemma mismatchOfRow_shape type row (e : mismatch) :
  mismatchOfRow type row = Normal e → e = Sentinel ∨ ∃ v, e = Tags [v].
Proof.
  unfold mismatchOfRow. cbv zeta. intros Hbody.
  repeat case_decide; simplify_eq/=; eauto.
  destruct (JS.method_split _ (row !! sourceIdx type)); simplify_eq/=.
  destruct (JS.method_split _ (row !! destIdx type)); simplify_eq/=.
  destruct (0 <? _); eauto.
Qed.

Lemma filter_subset_nil (S D : list (list N)) :
  (∀ t, t ∈ D → t ∈ S) → filter (λ t, t ∉ S) D = [].
Proof.
  intros Hsub. apply elem_of_nil_inv.
  intros t [Hn Ht]%list_elem_of_filter. by apply Hn, Hsub.
Qed.
End raise_facts.

(** X1. The undertags are the other difference. For every data row with both
    flag cells not empty, every tag token of the entry of the row in the list
    of undertags is one of the QA flags of the row (cell 3) and none of its
    agent flags (cell 2). *)
Theorem X1_undertags_are_qa_only (content : grid) (output : list mismatch)
    (i : nat) (row : list (list N)) (agent qa : list N) (e : mismatch)
    (t : list N) :
  getMismatchedTags content under = Normal output →
  content !! S i = Some row →
  row !! 2 = Some agent → row !! 3 = Some qa →
  agent ≠ [] → qa ≠ [] →
  output !! i = Some e →
  t ∈ tokensOf e →
  t ∈ JS.split (js ",") qa ∧ t ∉ JS.split (js ",") agent.
Proof.
  intros Hout Hrow Ha Hq Hane Hqne He Ht.
  destruct (getMismatchedTags_lookup _ _ _ _ _ Hout Hrow) as (e' & He' & Hbody).
  rewrite He in He'. injection He' as <-.
  rewrite (mismatchOfRow_cells under row agent qa Ha Hq) in Hbody.
  destruct (decide (agent = [])); [done|].
  destruct (decide (qa = [])); [done|].
  cbv zeta in Hbody.
  destruct (decide (filter _ _ = [])) as [|Hne]; injection Hbody as <-.
  - by apply elem_of_nil in Ht.
  - rewrite tokensOf_difference in Ht by done.
    apply list_elem_of_filter in Ht as [? ?]. done.
Qed.

Lemma X1_undertags_are_qa_only_witness :
  js "b" ∈ JS.split (js ",") (js "a,b") ∧ js "b" ∉ JS.split (js ",") (js "a").
Proof.
  apply (X1_undertags_are_qa_only
           [expectedHeaders; [js "u"; js "d"; js "a"; js "a,b"; js "g"]]
           [Tags [Some (js "b")]] 0
           [js "u"; js "d"; js "a"; js "a,b"; js "g"]
           (js "a") (js "a,b") (Tags [Some (js "b")]) (js "b"));
    try reflexivity; try discriminate.
  vm_compute. left.
Defined.

(** X2. The shape of the entries. Every entry that the extractor returns is
    the sentinel or an array of exactly one element. In the list of overtags
    that element is always a string. In the list of undertags it is
    [undefined] exactly for the rows whose cell 2 is the empty string and
    which have no cell 3. *)
Theorem X2_entry_shape (content : grid) (type : mode) (output : list mismatch)
    (i : nat) (row : list (list N)) (e : mismatch) :
  getMismatchedTags content type = Normal output →
  content !! S i = Some row →
  output !! i = Some e →
  (e = Sentinel ∨ ∃ v, e = Tags [v]) ∧
  (type = over → e ≠ Tags [None]) ∧
  (e = Tags [None] ↔ type = under ∧ row !! 2 = Some [] ∧ row !! 3 = None).
Proof.
  intros Hout Hrow He.
  destruct (getMismatchedTags_lookup _ _ _ _ _ Hout Hrow) as (e' & He' & Hbody).
  rewrite He in He'. injection He' as <-.
  unfold mismatchOfRow in Hbody. cbv zeta in Hbody.
  pose proof (cell3_cell2 row) as H32.
  destruct type; simpl in Hbody;
    destruct (row !! 2) as [agent|] eqn:H2, (row !! 3) as [qa|] eqn:H3;
    repeat case_decide; simplify_eq/=;
    try (destruct (0 <? _); simplify_eq/=);
    try (by destruct H32 as [? ?]; eauto).
  all: split_and!; [eauto| |split].
  all: try done.
  all: try (by intros (? & ? & ?)).
Qed.

Lemma X2_entry_shape_witness :
  Tags [None] = Tags [None] ↔
  under = under ∧ threeCellRow !! 2 = Some [] ∧ threeCellRow !! 3 = None.
Proof.
  apply (X2_entry_shape [expectedHeaders; threeCellRow] under [Tags [None]] 0
           threeCellRow (Tags [None])); reflexivity.
Defined.

(** X3. When the extractor raises. In either mode the extractor raises a
    [TypeError] exactly on the grids with a data row that has no cell 3 and
    whose cell 2 is missing or not the empty string; on every other grid it
    returns a list. So the two modes raise on the same grids. *)
Theorem X3_raise_condition (content : grid) (type : mode) :
  (getMismatchedTags content type = Throw TypeError ↔
   ∃ row, row ∈ drop 1 content ∧ row !! 3 = None ∧ row !! 2 ≠ Some []) ∧
  ((∃ output, getMismatchedTags content type = Normal output) ↔
   ∀ row, row ∈ drop 1 content → is_Some (row !! 3) ∨ row !! 2 = Some []) ∧
  (getMismatchedTags content over = Throw TypeError ↔
   getMismatchedTags content under = Throw TypeError).
Proof.
  split_and!.
  - apply getMismatchedTags_Throw.
  - apply getMismatchedTags_returns.
  - by rewrite !getMismatchedTags_Throw.
Qed.

Lemma X3_raise_condition_witness :
  getMismatchedTags trailingLineGrid under = Throw TypeError.
Proof.
  destruct (X3_raise_condition trailingLineGrid under) as (Hraise & _ & _).
  apply Hraise. exists [[]]. split_and!.
  - right. left.
  - reflexivity.
  - discriminate.
Defined.

(** X4. When a row shows no mismatch. For a data row with both flag cells and
    a QA-flags cell that is not empty, as the row filter leaves them, the
    entry in the list of overtags is the sentinel exactly when the agent-flags
    cell is empty or every agent token is a QA token; the entry in the list of
    undertags is the sentinel exactly when the agent-flags cell is not empty
    and every QA token is an agent token. *)
Theorem X4_sentinel_iff_included (content : grid) (outO outU : list mismatch)
    (i : nat) (row : list (list N)) (agent qa : list N) :
  getMismatchedTags content over = Normal outO →
  getMismatchedTags content under = Normal outU →
  content !! S i = Some row →
  row !! 2 = Some agent → row !! 3 = Some qa → qa ≠ [] →
  (outO !! i = Some Sentinel ↔
   agent = [] ∨ ∀ t, t ∈ JS.split (js ",") agent → t ∈ JS.split (js ",") qa) ∧
  (outU !! i = Some Sentinel ↔
   agent ≠ [] ∧ ∀ t, t ∈ JS.split (js ",") qa → t ∈ JS.split (js ",") agent).
Proof.
  intros HoO HoU Hrow H2 H3 Hqa.
  destruct (getMismatchedTags_lookup _ _ _ _ _ HoO Hrow) as (eo & -> & Ho).
  destruct (getMismatchedTags_lookup _ _ _ _ _ HoU Hrow) as (eu & -> & Hu).
  rewrite (mismatchOfRow_cells over row qa agent H3 H2) in Ho.
  rewrite (mismatchOfRow_cells under row agent qa H2 H3) in Hu.
  destruct (decide (qa = [])); [done|]. cbv zeta in Ho, Hu.
  destruct (decide (agent = [])) as [->|Hagent].
  { simplify_eq. split; [by split; [left|]|]. split; [done|by intros [? _]]. }
  split.
  - destruct (decide (filter _ _ = [])) as [Hnil|Hne] in Ho; simplify_eq.
    + split; [|done]. intros _. right. intros t. by apply filter_nil_subset.
    + split; [done|]. intros [?|Hsub]; [done|].
      by apply filter_subset_nil in Hsub.
  - destruct (decide (filter _ _ = [])) as [Hnil|Hne] in Hu; simplify_eq.
    + split; [|done]. intros _. split; [done|].
      intros t. by apply filter_nil_subset.
    + split; [done|]. intros [_ Hsub]. by apply filter_subset_nil in Hsub.
Qed.

Lemma X4_sentinel_iff_included_witness :
  [Sentinel] !! 0 = Some Sentinel ↔
  js "a,b" = [] ∨
  ∀ t, t ∈ JS.split (js ",") (js "a,b") → t ∈ JS.split (js ",") (js "b,a,a").
Proof.
  apply (X4_sentinel_iff_included [expectedHeaders; permutedRow]
           [Sentinel] [Sentinel] 0 permutedRow (js "a,b") (js "b,a,a"));
    try reflexivity; discriminate.
Defined.

Section column_facts.
Implicit Types (rows : list (list (list N))) (row : list (list N)).

Lemma mismatchOfRow_ext t1 t2 (r1 r2 : list (list N)) :
  r1 !! sourceIdx t1 = r2 !! sourceIdx t2 →
  r1 !! destIdx t1 = r2 !! destIdx t2 →
  mismatchOfRow t1 r1 = mismatchOfRow t2 r2.
Proof. intros Hs Hd. unfold mismatchOfRow. by rewrite Hs, Hd. Qed.

Lemma mismatchLoop_ext t1 t2 rows1 rows2 output :
  Forall2 (λ r1 r2 : list (list N),
             r1 !! sourceIdx t1 = r2 !! sourceIdx t2 ∧
             r1 !! destIdx t1 = r2 !! destIdx t2) rows1 rows2 →
  mismatchLoop t1 rows1 output = mismatchLoop t2 rows2 output.
Proof.
  intros H. revert output.
  induction H as [|r1 r2 rows1 rows2 [Hs Hd] _ IH]; intros output; simpl.
  - done.
  - rewrite (mismatchOfRow_ext t1 t2 r1 r2 Hs Hd).
    destruct (mismatchOfRow t2 r2); simpl; [apply IH|done].
Qed.

Lemma l1Loop_ext rows1 rows2 u :
  Forall2 (λ r1 r2 : list (list N), r1 !! 2 = r2 !! 2 ∧ r1 !! 3 = r2 !! 3)
          rows1 rows2 →
  l1Loop rows1 u = l1Loop rows2 u.
Proof.
  intros H. revert u.
  induction H as [|r1 r2 rows1 rows2 [H2 H3] _ IH]; intros u; simpl.
  - done.
  - unfold allFlagsOfRow. rewrite H2, H3.
    destruct (l1ForEach _ u); simpl; [apply IH|done].
Qed.
End column_facts.

(** X5. Only the two flag columns are read. Two grids whose data rows agree,
    row by row, in the cells 2 and 3 get the same result from the mismatch
    extractor in each mode and from the L1 tag extractor, exception included:
    the header row and the cells 0, 1 and 4 have no influence. *)
Theorem X5_only_flag_columns (c1 c2 : grid) (type : mode) :
  Forall2 (λ r1 r2 : list (list N), r1 !! 2 = r2 !! 2 ∧ r1 !! 3 = r2 !! 3)
          (drop 1 c1) (drop 1 c2) →
  getMismatchedTags c1 type = getMismatchedTags c2 type ∧
  getL1Tags c1 = getL1Tags c2.
Proof.
  intros H. split.
  - unfold getMismatchedTags. apply mismatchLoop_ext.
    eapply Forall2_impl; [exact H|]. intros r1 r2 [H2 H3].
    by destruct type.
  - unfold getL1Tags. by rewrite (l1Loop_ext _ _ [] H).
Qed.

Lemma X5_only_flag_columns_witness :
  getMismatchedTags sampleGrid over =
  getMismatchedTags
    [blankHeader; [js "x"; js "y"; js "Spam::L1A,Other"; js "Spam::L1A"]] over ∧
  getL1Tags sampleGrid =
  getL1Tags
    [blankHeader; [js "x"; js "y"; js "Spam::L1A,Other"; js "Spam::L1A"]].
Proof.
  apply X5_only_flag_columns. repeat constructor.
Defined.

(** X6. The two modes mirror each other. The list of undertags of a grid is
    the list of overtags of any grid whose data rows have the cells 2 and 3
    exchanged, exception included. *)
Theorem X6_under_is_over_swapped (c c' : grid) :
  Forall2 (λ r r' : list (list N), r' !! 2 = r !! 3 ∧ r' !! 3 = r !! 2)
          (drop 1 c) (drop 1 c') →
  getMismatchedTags c under = getMismatchedTags c' over.
Proof.
  intros H. unfold getMismatchedTags. apply mismatchLoop_ext.
  eapply Forall2_impl; [exact H|]. intros r r' [H2 H3].
  split; simpl; congruence.
Qed.

Lemma X6_under_is_over_swapped_witness :
  getMismatchedTags sampleGrid under =
  getMismatchedTags
    [expectedHeaders;
     [js "url1"; js "2024-01-01"; js "Spam::L1A"; js "Spam::L1A,Other"]] over.
Proof.
  apply X6_under_is_over_swapped. repeat constructor.
Defined.

(** ** Further properties of the L1 tags *)

Section l1_more_facts.
Implicit Types (content : list (list (list N))) (row : list (list N)).
Implicit Types (s sep flag x : list N) (c : N).

(** What [getL1Tags] returns, by the flags of the rows. *)
Lemma getL1Tags_spec content :
  ∃ tags, getL1Tags content = Normal tags ∧ Sorted JS.le tags ∧ NoDup tags ∧
          ∀ x, x ∈ tags ↔
               ∃ row flag, row ∈ drop 1 content ∧ flag ∈ allFlagsOfRow row ∧
                           JS.includes (js "::") flag = true ∧
                           x = JS.trim (secondPiece (js "::") flag).
Proof.
  unfold getL1Tags.
  destruct (l1Loop_spec (drop 1 content) []) as (u & -> & Hnd & Hmem).
  exists (JS.sort u). split_and!; [done|apply sort_Sorted| |].
  - apply sort_NoDup, Hnd, NoDup_nil_2.
  - intros x. rewrite elem_of_sort, Hmem. split; [|by right].
    by intros [[]%elem_of_nil|?].
Qed.

(** Two sorted arrays without duplicates and with the same members are the
    same array. *)
Lemma sorted_nodup_ext (l1 l2 : list (list N)) :
  Sorted JS.le l1 → Sorted JS.le l2 → NoDup l1 → NoDup l2 →
  (∀ x, x ∈ l1 ↔ x ∈ l2) → l1 = l2.
Proof.
  intros Hs1 Hs2 Hn1 Hn2 Hmem.
  pose proof le_trans as Htrans. pose proof le_antisym as Hanti.
  apply (Sorted_unique JS.le); [done..|]. by apply NoDup_Permutation.
Qed.

(** The part before the first occurrence of [sep] holds no occurrence. *)
Lemma beforeFirst_free sep s :
  sep ≠ [] → JS.includes sep (beforeFirst sep s) = false.
Proof.
  intros Hsep. unfold beforeFirst.
  destruct (JS.indexOf sep s) as [j|] eqn:Ej.
  - destruct (JS.includes sep (take j s)) eqn:Einc; [|done].
    apply includes_spec in Einc as (a & b & Hab).
    apply indexOf_Some in Ej as [_ Hleft].
    assert (length a < j) as Hlt.
    { apply (f_equal length) in Hab.
      rewrite length_take, !length_app in Hab.
      destruct sep; [done|]. simpl in Hab. lia. }
    specialize (Hleft (length a) Hlt).
    rewrite <-(take_drop j s), Hab, <-!app_assoc in Hleft.
    by rewrite drop_app_length, startsWith_app in Hleft.
  - unfold JS.includes. by rewrite Ej.
Qed.

Lemma includes_infix sep (a s b : list N) :
  JS.includes sep s = true → JS.includes sep (a ++ s ++ b) = true.
Proof.
  intros (a' & b' & ->)%includes_spec. apply includes_spec.
  exists (a ++ a'), (b' ++ b). by rewrite <-!app_assoc.
Qed.

Lemma elem_of_secondPiece sep s c : c ∈ secondPiece sep s → c ∈ s.
Proof.
  unfold secondPiece, beforeFirst, afterFirst. intros H.
  assert (c ∈ match JS.indexOf sep s with
              | Some j => drop (j + length sep) s
              | None => []
              end) as H'.
  { destruct (JS.indexOf sep _); [by eapply subseteq_take|done]. }
  destruct (JS.indexOf sep s); [by eapply subseteq_drop|].
  by apply elem_of_nil in H'.
Qed.
End l1_more_facts.

(** X7. The shape of an L1 tag. Every string in the list that the L1 tag
    extractor returns contains no comma and no delimiter [::], and neither
    begins nor ends with white space. *)
Theorem X7_l1_tag_shape (content : grid) (tags : list (list N)) (x : list N) :
  getL1Tags content = Normal tags → x ∈ tags →
  (44%N ∉ x) ∧
  JS.includes (js "::") x = false ∧
  (∀ c r, x = c :: r → JS.isWhiteSpace c = false) ∧
  (∀ c r, x = r ++ [c] → JS.isWhiteSpace c = false).
Proof.
  intros Htags Hx.
  destruct (getL1Tags_spec content) as (tags' & Htags' & _ & _ & Hmem).
  rewrite Htags in Htags'. injection Htags' as <-.
  apply Hmem in Hx as (row & flag & _ & Hflag & _ & ->).
  destruct (trim_spec (secondPiece (js "::") flag))
    as (ws1 & ws2 & Hparts & _ & _ & Hhd & Htl).
  split_and!; [| |done..].
  - intros Hcomma.
    apply elem_of_allFlagsOfRow in Hflag as (cell & _ & _ & Hflag).
    change (js ",") with [44%N] in Hflag.
    apply split_one_free in Hflag. apply Hflag.
    apply (elem_of_secondPiece (js "::")). rewrite Hparts.
    rewrite !elem_of_app. auto.
  - destruct (JS.includes _ (JS.trim _)) eqn:Einc; [|done].
    apply (includes_infix _ ws1 _ ws2) in Einc. rewrite <-Hparts in Einc.
    unfold secondPiece in Einc. by rewrite beforeFirst_free in Einc.
Qed.

Lemma X7_l1_tag_shape_witness :
  (44%N ∉ js "L1A") ∧
  JS.includes (js "::") (js "L1A") = false ∧
  (∀ c r, js "L1A" = c :: r → JS.isWhiteSpace c = false) ∧
  (∀ c r, js "L1A" = r ++ [c] → JS.isWhiteSpace c = false).
Proof.
  apply (X7_l1_tag_shape sampleGrid [js "L1A"]); [reflexivity|by left].
Defined.

(** X8. The L1 tags depend on the set of data rows only. Two grids with the
    same data rows, whatever their header row, the order of the data rows and
    the number of times a row appears, have the same list of L1 tags. *)
Theorem X8_l1_tags_of_row_set (c1 c2 : grid) :
  (∀ row, row ∈ drop 1 c1 ↔ row ∈ drop 1 c2) →
  getL1Tags c1 = getL1Tags c2.
Proof.
  intros Hrows.
  destruct (getL1Tags_spec c1) as (t1 & -> & Hs1 & Hn1 & Hm1).
  destruct (getL1Tags_spec c2) as (t2 & -> & Hs2 & Hn2 & Hm2).
  f_equal. apply sorted_nodup_ext; [done..|].
  intros x. rewrite Hm1, Hm2.
  split; intros (row & flag & Hrow & H); exists row, flag;
    (split; [by apply Hrows|done]).
Qed.

Lemma X8_l1_tags_of_row_set_witness :
  getL1Tags [expectedHeaders; sampleRow; nestedRow] =
  getL1Tags [blankHeader; nestedRow; sampleRow; nestedRow].
Proof.
  apply X8_l1_tags_of_row_set. intros row. simpl.
  rewrite !elem_of_cons. rewrite !elem_of_nil. tauto.
Defined.

(** X9. Filtering only removes L1 tags. On every grid, the L1 tags of the
    filtered grid are among the L1 tags of the grid itself: the flags of a row
    with an empty QA-flags cell are not counted once the row is filtered
    out, and no tag is gained. *)
Theorem X9_l1_tags_of_filtered (content : grid) :
  ∃ kept all, getL1Tags (filterRows content) = Normal kept ∧
              getL1Tags content = Normal all ∧
              kept ⊆ all.
Proof.
  destruct (getL1Tags_spec (filterRows content)) as (kept & Hk & _ & _ & Hmk).
  destruct (getL1Tags_spec content) as (all & Ha & _ & _ & Hma).
  exists kept, all. split_and!; [done..|].
  intros x (row & flag & Hrow & H)%Hmk. apply Hma. exists row, flag.
  split; [|done].
  destruct content as [|header rest]; [done|]. simpl.
  assert (row ∈ filterRows rest) as Hin.
  { unfold filterRows in *. rewrite filter_cons in Hrow.
    destruct (decide _); simpl in Hrow; [done|].
    by eapply subseteq_drop. }
  by apply list_elem_of_filter in Hin as [_ ?].
Qed.

(** ** Further properties of the callback, the file input and the view *)

Section run_facts.
Implicit Types (content : list (list (list N))) (row : list (list N)).
Implicit Types (st : component) (type : mode).

Lemma filterRows_idemp content : filterRows (filterRows content) = filterRows content.
Proof.
  induction content as [|row content IH]; [done|].
  destruct (decide (row !! 3 = Some [])) as [H|H].
  - by rewrite filterRows_cons_drop.
  - by rewrite !filterRows_cons_keep, IH.
Qed.

Lemma filterRows_Forall content :
  Forall (λ row, row !! 3 ≠ Some []) (filterRows content).
Proof. apply Forall_forall. by intros row [? _]%list_elem_of_filter. Qed.

(** Behind a valid header the data rows of the filtered grid are the
    filtered data rows. *)
Lemma filterRows_valid content :
  content !! 0 = Some expectedHeaders →
  filterRows content = expectedHeaders :: filterRows (drop 1 content).
Proof.
  destruct content as [|h rest]; [done|]. simpl. intros [= ->].
  by rewrite filterRows_cons_keep, drop_0.
Qed.

Lemma filtered_returns content type :
  content !! 0 = Some expectedHeaders →
  (∃ output, getMismatchedTags (filterRows content) type = Normal output) ↔
  ∀ row, row ∈ drop 1 content → is_Some (row !! 3) ∨ row !! 2 = Some [].
Proof.
  intros Hh. rewrite getMismatchedTags_returns, filterRows_valid by done.
  simpl. rewrite drop_0. split.
  - intros Hall row Hrow.
    destruct (decide (row !! 3 = Some [])) as [H3|H3]; [left; eauto|].
    apply Hall. by apply list_elem_of_filter.
  - intros Hall row [_ Hrow]%list_elem_of_filter. by apply Hall.
Qed.

Lemma getL1Tags_Normal content : getL1Tags content ≠ Throw TypeError.
Proof. destruct (getL1Tags_spec content) as (tags & -> & _). done. Qed.

(** Every step of the file input keeps the stored bundle whole and never
    takes a stored bundle away. *)
Lemma fileInputChange_whole file st :
  (∀ r, results st = Some r → wholeBundle r) →
  ∀ r, results (fileInputChange file st) = Some r → wholeBundle r.
Proof.
  intros Hinv r. destruct file as [[content|]|]; simpl; [|apply Hinv..].
  destruct (handleFileUpload_cases content st)
    as [(Hh & o & u & l & Ho & Hu & Hl & ->)|[[_ ->]|[_ ->]]];
    simpl; [|apply Hinv..].
  intros [= <-]. unfold wholeBundle. simpl. split_and!; [|apply filterRows_Forall|done..].
  by rewrite filterRows_valid.
Qed.

Lemma fileInputChange_keeps file st :
  is_Some (results st) → is_Some (results (fileInputChange file st)).
Proof.
  intros Hsome. destruct file as [[content|]|]; simpl; [|done..].
  destruct (handleFileUpload_cases content st)
    as [(_ & o & u & l & _ & _ & _ & ->)|[[_ ->]|[_ ->]]]; simpl; eauto.
Qed.

Lemma afterChanges_whole files st :
  (∀ r, results st = Some r → wholeBundle r) →
  ∀ r, results (afterChanges files st) = Some r → wholeBundle r.
Proof.
  revert st. induction files as [|file files IH]; intros st Hinv; [done|].
  simpl. apply IH. by apply fileInputChange_whole.
Qed.

Lemma afterChanges_keeps files st :
  is_Some (results st) → is_Some (results (afterChanges files st)).
Proof.
  revert st. induction files as [|file files IH]; intros st Hsome; [done|].
  simpl. apply IH. by apply fileInputChange_keeps.
Qed.
End run_facts.

(** X10. The outcomes of a run by the grid. A run ends with the error cleared
    exactly when the first row is the expected header and every data row has a
    cell 3 or has the empty string as its cell 2. It reports a processing
    error exactly when the grid has no row at all, or the first row is the
    expected header and some data row has no cell 3 while its cell 2 is
    missing or not empty. It never reports a parse error. *)
Theorem X10_outcome_by_grid (content : grid) (st : component) :
  (error (handleFileUpload content st) = None ↔
   content !! 0 = Some expectedHeaders ∧
   ∀ row, row ∈ drop 1 content → is_Some (row !! 3) ∨ row !! 2 = Some []) ∧
  (error (handleFileUpload content st) = Some (ErrorProcessingFile TypeError) ↔
   content = [] ∨
   content !! 0 = Some expectedHeaders ∧
   ∃ row, row ∈ drop 1 content ∧ row !! 3 = None ∧ row !! 2 ≠ Some []) ∧
  error (handleFileUpload content st) ≠ Some ErrorParsingCsv.
Proof.
  assert (content !! 0 = Some expectedHeaders →
          (∃ row, row ∈ drop 1 content ∧ row !! 3 = None ∧ row !! 2 ≠ Some []) →
          (∀ row, row ∈ drop 1 content →
                  is_Some (row !! 3) ∨ row !! 2 = Some []) → False) as Hexcl.
  { intros _ (row & Hrow & H3 & H2) Hall.
    destruct (Hall row Hrow) as [[qa Hqa]|?]; congruence. }
  destruct (handleFileUpload_cases content st)
    as [(Hh & o & u & l & Ho & Hu & Hl & ->)|[[Hh ->]|[Hh ->]]]; simpl.
  - assert (∀ row, row ∈ drop 1 content →
                   is_Some (row !! 3) ∨ row !! 2 = Some []) as Hall
      by (apply (filtered_returns content over); eauto).
    split_and!; [done| |done].
    split; [done|]. intros [->|[_ Hbad]]; [done|]. by destruct Hexcl.
  - destruct Hh as (headers & Hh & Hne).
    split_and!; [|split; [done|]|done].
    + split; [done|]. intros [? _]. congruence.
    + intros [->|[? _]]; [done|congruence].
  - split_and!; [|split; [intros _|done]|done].
    + split; [done|]. intros [Hvalid Hall].
      destruct Hh as [?|[_ [Hthrow|[Hthrow|Hthrow]]]]; [congruence|..].
      * destruct (proj2 (filtered_returns content over Hvalid) Hall). congruence.
      * destruct (proj2 (filtered_returns content under Hvalid) Hall). congruence.
      * by apply getL1Tags_Normal in Hthrow.
    + destruct Hh as [Hnone|[Hvalid Hthrow]].
      { left. by destruct content. }
      right. split; [done|].
      assert (∃ type, getMismatchedTags (filterRows content) type =
                      Throw TypeError) as [type Htype].
      { destruct Hthrow as [?|[?|Hl]]; [by exists over|by exists under|].
        by apply getL1Tags_Normal in Hl. }
      apply getMismatchedTags_Throw in Htype as (row & Hrow & H3 & H2).
      exists row. split_and!; [|done..].
      rewrite filterRows_valid in Hrow by done. simpl in Hrow.
      rewrite drop_0 in Hrow. by apply list_elem_of_filter in Hrow as [_ ?].
Qed.

Lemma X10_outcome_by_grid_witness :
  error (handleFileUpload [expectedHeaders; sampleRow; threeCellRow] initial) =
  None.
Proof.
  destruct (X10_outcome_by_grid [expectedHeaders; sampleRow; threeCellRow]
              initial) as (Hok & _ & _).
  apply Hok. split; [reflexivity|]. intros row Hrow. simpl in Hrow.
  apply elem_of_cons in Hrow as [->|Hrow]; [left; by eexists|].
  apply list_elem_of_singleton in Hrow as ->. by right.
Defined.

(** X11. Reading the stored grid again. When a run ends with the error
    cleared, a run on the filtered grid it stored, from any state, ends in the
    same state: the same grid and the same three lists. *)
Theorem X11_stored_grid_is_fixed (content : grid) (st st' : component) :
  error (handleFileUpload content st) = None →
  handleFileUpload (filterRows content) st' = handleFileUpload content st.
Proof.
  destruct (handleFileUpload_cases content st)
    as [(Hh & o & u & l & Ho & Hu & Hl & ->)|[[_ ->]|[_ ->]]]; simpl; [|done..].
  intros _.
  assert (filterRows content !! 0 = Some expectedHeaders) as Hh'
    by by rewrite filterRows_valid.
  destruct (handleFileUpload_cases (filterRows content) st')
    as [(_ & o' & u' & l' & Ho' & Hu' & Hl' & ->)|[[Hbad _]|[Hbad _]]].
  - rewrite filterRows_idemp in *. congruence.
  - destruct Hbad as (headers & ? & ?). congruence.
  - rewrite filterRows_idemp in Hbad.
    destruct Hbad as [?|[_ [?|[?|?]]]]; congruence.
Qed.

Lemma X11_stored_grid_is_fixed_witness :
  handleFileUpload (filterRows sampleGrid) initial =
  handleFileUpload sampleGrid initial.
Proof. apply X11_stored_grid_is_fixed. reflexivity. Defined.

(** X12. What every series of file choices keeps. Starting from the state
    before any file, after any series of changes of the file input (no file,
    a parsed grid, a parse failure) the stored results are none or a whole
    bundle: a grid that begins with the expected header and has no row with an
    empty cell 3, with the lists that the extractors return on that grid. And
    from any state, results once stored are never taken away by later
    changes, whether these succeed or fail. *)
Theorem X12_results_stay_whole (files : list (option parsed)) :
  (∀ r, results (afterChanges files initial) = Some r → wholeBundle r) ∧
  (∀ st, is_Some (results st) → is_Some (results (afterChanges files st))).
Proof.
  split.
  - by apply afterChanges_whole.
  - intros st. apply afterChanges_keeps.
Qed.

Lemma X12_results_stay_whole_witness :
  is_Some (results (afterChanges
                      [Some Failed; None; Some (Complete trailingLineGrid)]
                      (handleFileUpload sampleGrid initial))).
Proof.
  destruct (X12_results_stay_whole
              [Some Failed; None; Some (Complete trailingLineGrid)])
    as [_ Hkeep].
  apply Hkeep. by eexists.
Defined.

(** X13. What a line of a card reads. For an entry that the extractor
    returns, the line reads [None] exactly when the entry is the sentinel or
    the one-element array of the string [None]: a difference that consists of
    the single tag [None] is shown like no difference at all. Any other
    one-element array reads as its string, and as nothing when the element is
    [undefined]. *)
Theorem X13_line_reads_none (content : grid) (type : mode)
    (output : list mismatch) (i : nat) (row : list (list N)) (e : mismatch) :
  getMismatchedTags content type = Normal output →
  content !! S i = Some row →
  output !! i = Some e →
  (textOf (renderTag e) = js "None" ↔
   e = Sentinel ∨ e = Tags [Some (js "None")]) ∧
  (∀ s, e = Tags [Some s] → textOf (renderTag e) = s) ∧
  (e = Tags [None] → textOf (renderTag e) = []).
Proof.
  intros Hout Hrow He.
  destruct (getMismatchedTags_lookup _ _ _ _ _ Hout Hrow) as (e' & He' & Hbody).
  rewrite He in He'. injection He' as <-.
  apply mismatchOfRow_shape in Hbody as [->|[[s|] ->]]; simpl.
  - split_and!; [|done..]. split; [by left|done].
  - rewrite app_nil_r. split_and!.
    + split; [intros ->; by right|]. by intros [?|[= ->]].
    + by intros ? [= ->].
    + done.
  - split_and!; [|done..]. split; [done|]. by intros [?|?].
Qed.

Lemma X13_line_reads_none_witness :
  textOf (renderTag (Tags [Some (js "None")])) = js "None" ↔
  Tags [Some (js "None")] = Sentinel ∨
  Tags [Some (js "None")] = Tags [Some (js "None")].
Proof.
  apply (X13_line_reads_none [expectedHeaders; noneRow] over
           [Tags [Some (js "None")]] 0 noneRow (Tags [Some (js "None")]));
    reflexivity.
Defined.

(** X14. The cards of the view. After any series of changes of the file
    input, when the view shows the cards, the card of overtags and the card of
    undertags have the same number of lines, one less than the rows of the
    stored grid, and the badges of L1 tags are in ascending order without
    duplicates. *)
Theorem X14_cards_line_up (files : list (option parsed))
    (r : AnalysisResults) (cs : cards) :
  results (afterChanges files initial) = Some r →
  analysis (render (afterChanges files initial)) = Some cs →
  length (overtagLines cs) = length (data r) - 1 ∧
  length (undertagLines cs) = length (data r) - 1 ∧
  Sorted JS.le (badges cs) ∧ NoDup (badges cs).
Proof.
  intros Hr Hcs. unfold render in Hcs. simpl in Hcs. rewrite Hr in Hcs.
  injection Hcs as <-. simpl. rewrite !length_fmap.
  destruct (afterChanges_whole files initial) with (r := r)
    as (_ & _ & Ho & Hu & Hl); [done..|].
  apply getMismatchedTags_length in Ho, Hu.
  destruct (getL1Tags_spec (data r)) as (tags & Htags & Hs & Hn & _).
  rewrite Hl in Htags. injection Htags as <-. done.
Qed.

Lemma X14_cards_line_up_witness :
  ∃ cs, analysis (render (afterChanges
                            [Some (Complete sampleGrid); Some Failed] initial)) =
        Some cs ∧
        length (overtagLines cs) = 1 ∧ length (undertagLines cs) = 1.
Proof.
  eexists. split; [reflexivity|].
  destruct (X14_cards_line_up
              [Some (Complete sampleGrid); Some Failed]
              (mkResults sampleGrid [Tags [Some (js "Other")]] [Sentinel]
                 [js "L1A"])
              _ eq_refl eq_refl) as (Ho & Hu & _).
  split; [exact Ho|exact Hu].
Defined.

(** X15. A file without usable rows. When the first row is the expected
    header and every data row has the empty string as its QA-flags cell, in
    particular when there is no data row, the run ends without error and
    stores the header alone with empty lists of overtags, undertags and L1
    tags. *)
Theorem X15_header_alone (content : grid) (st : component) :
  content !! 0 = Some expectedHeaders →
  (∀ row, row ∈ drop 1 content → row !! 3 = Some []) →
  handleFileUpload content st =
  {| results := Some (mkResults [expectedHeaders] [] [] []); error := None |}.
Proof.
  intros Hh Hall.
  assert (filterRows content = [expectedHeaders]) as Hf.
  { rewrite filterRows_valid by done. f_equal.
    apply elem_of_nil_inv. intros row [Hne Hrow]%list_elem_of_filter.
    by apply Hne, Hall. }
  destruct (handleFileUpload_cases content st)
    as [(_ & o & u & l & Ho & Hu & Hl & ->)|[[Hbad _]|[Hbad _]]].
  - rewrite Hf in *. vm_compute in Ho, Hu, Hl. by simplify_eq.
  - destruct Hbad as (headers & ? & ?). congruence.
  - rewrite Hf in Hbad.
    destruct Hbad as [?|[_ [Hthrow|[Hthrow|Hthrow]]]]; [congruence|..];
      by vm_compute in Hthrow.
Qed.

Lemma X15_header_alone_witness :
  handleFileUpload
    [expectedHeaders; [js "url0"; js "2024-01-01"; js "Spam::L1B"; []; js "a"]]
    initial =
  {| results := Some (mkResults [expectedHeaders] [] [] []); error := None |}.
Proof.
  apply X15_header_alone; [reflexivity|].
  intros row Hrow. simpl in Hrow.
  apply list_elem_of_singleton in Hrow as ->. reflexivity.
Defined.
